(** * The hybrid ranking pipeline of [app/agent/curator_agent.py]

    A shallow embedding of the curator agent and the properties of its
    ranking pipeline: tokenizer, profile vocabulary, heuristic scorer,
    pre-ranker, external relevance scorer (request building and reply
    parsing) and the ranking coordinator [rank_digests].

    Modelling conventions.
    - A Python [float] is a [PrimFloat.float] (IEEE 754 binary64, round to
      nearest even), a Python [int] is a [Z] (a length is a [nat]).
    - A Python [str] is a [string] that holds its UTF-8 encoding.  The
      agent inspects ASCII characters only (letters, digits, white space,
      braces, fences); a character outside ASCII is opaque here: never a
      letter, a digit or white space.
    - A value that may be [None] is an [option].
    - A [dict] keyed by strings is a [gmap string _], a [set] of strings a
      [gset string].
    - A function that may raise returns [exn + A]; the clock and the
      external text-generation service are oracles passed as arguments. *)

From Stdlib Require Import ZArith Ascii String Floats DecimalString.
From Stdlib Require Uint63.
From stdpp Require Import gmap strings list sorting.

Set Warnings "-inexact-float,-register-all".
Set Default Proof Using "Type".

Local Open Scope string_scope.

(** ** Python text primitives *)

Module PyStr.

Definition code (c : ascii) : nat := nat_of_ascii c.

Definition between (lo hi : nat) (c : ascii) : bool :=
  (lo <=? code c)%nat && (code c <=? hi)%nat.

(** [str.lower] on one character: only [A-Z] change inside ASCII. *)
Definition lower_char (c : ascii) : ascii :=
  if between 65 90 c then ascii_of_nat (code c + 32) else c.

Fixpoint lower (s : string) : string :=
  match s with
  | EmptyString => EmptyString
  | String c r => String (lower_char c) (lower r)
  end.

(** [str.isspace] (and the [\s] class of [re]) inside ASCII:
    tab, line feed, vertical tab, form feed, carriage return, the four
    separators 0x1c-0x1f and the space. *)
Definition isspace (c : ascii) : bool :=
  between 9 13 c || between 28 32 c.

Fixpoint lstrip (s : string) : string :=
  match s with
  | EmptyString => EmptyString
  | String c r => if isspace c then lstrip r else s
  end.

Definition rstrip (s : string) : string :=
  String.rev (lstrip (String.rev s)).

Definition strip (s : string) : string := rstrip (lstrip s).

Definition startswith (s pre : string) : bool := String.prefix pre s.

(** [s.find(c)] for a one-character needle: least index, or [-1]. *)
Fixpoint find_from (c : ascii) (i : Z) (s : string) : Z :=
  match s with
  | EmptyString => (-1)%Z
  | String x r => if Ascii.eqb x c then i else find_from c (i + 1)%Z r
  end.

Definition find (s : string) (c : ascii) : Z := find_from c 0%Z s.

(** [s.rfind(c)]: greatest index, or [-1]. *)
Fixpoint rfind_from (c : ascii) (i : Z) (last : Z) (s : string) : Z :=
  match s with
  | EmptyString => last
  | String x r =>
      rfind_from c (i + 1)%Z (if Ascii.eqb x c then i else last) r
  end.

Definition rfind (s : string) (c : ascii) : Z := rfind_from c 0%Z (-1)%Z s.

(** [s[a:b]] for [0 <= a <= b]. *)
Definition slice (s : string) (a b : Z) : string :=
  substring (Z.to_nat a) (Z.to_nat (b - a)) s.

(** [s.split(sep)] for a non-empty separator: [skip] counts the
    characters of a matched separator that remain to be dropped, [cur]
    holds the current piece in reverse. *)
Fixpoint split_go (sep : string) (skip : nat) (cur : list ascii)
    (s : string) : list string :=
  match s with
  | EmptyString => [string_of_list_ascii (rev cur)]
  | String c r =>
      match skip with
      | S k => split_go sep k cur r
      | O =>
          if String.prefix sep s
          then string_of_list_ascii (rev cur)
                 :: split_go sep (String.length sep - 1) [] r
          else split_go sep 0 (c :: cur) r
      end
  end.

Definition split (s sep : string) : list string := split_go sep 0 [] s.

(** [re.sub(r"^\s*json\s*", "", s, flags=re.IGNORECASE)]: the pattern
    is anchored at the start, so at most one match is removed. *)
Definition sub_json_tag (s : string) : string :=
  let t := lstrip s in
  if String.prefix "json" (lower (substring 0 4 t))
  then lstrip (substring 4 (String.length t - 4) t)
  else s.

(** [sep.join(parts)]. *)
Fixpoint join (sep : string) (parts : list string) : string :=
  match parts with
  | [] => ""
  | [p] => p
  | p :: ps => p ++ sep ++ join sep ps
  end.

(** [str(n)] for a length. *)
Definition of_nat (n : nat) : string :=
  NilZero.string_of_uint (Nat.to_uint n).

(** How an f-string renders a value that may be [None]. *)
Definition fmt (v : option string) : string := default "None" v.

Definition nl : string := String "010" EmptyString.

(** Literals that contain double quotes are written with apostrophes:
    [dq s] is [s] with every apostrophe replaced by a double quote. *)
Fixpoint dq (s : string) : string :=
  match s with
  | EmptyString => EmptyString
  | String c r => String (if Ascii.eqb c "'" then "034"%char else c) (dq r)
  end.

End PyStr.

(** ** Helper utils of the agent *)

(** The character class [[a-z0-9]]. *)
Definition token_char (c : ascii) : bool :=
  PyStr.between 97 122 c || PyStr.between 48 57 c.

(** One maximal run is a match of [[a-z0-9]{4,}] when it has four
    characters or more; shorter runs match nothing. *)
Definition emit_run (run : list ascii) (k : list string) : list string :=
  if (4 <=? length run)%nat then string_of_list_ascii (rev run) :: k else k.

(** [re.findall(r"[a-z0-9]{4,}", s)]: the maximal runs, left to right. *)
Fixpoint findall_runs (run : list ascii) (s : string) : list string :=
  match s with
  | EmptyString => emit_run run []
  | String c r =>
      if token_char c then findall_runs (c :: run) r
      else emit_run run (findall_runs [] r)
  end.

Definition _tokenize (text : option string) : list string :=
  let text := PyStr.lower (default "" text) in
  findall_runs [] text.

(** ** Python floats *)

Module PyFloat.

Local Open Scope float_scope.

(** [max(a, b)] and [min(a, b)] of two arguments: the first argument is
    kept unless the second is strictly greater (strictly smaller). *)
Definition max (a b : float) : float := if a <? b then b else a.
Definition min (a b : float) : float := if b <? a then b else a.

(** [float(z)] for an [int]: correctly rounded, [OverflowError]
    ([None]) when the integer is too large for a finite double. *)
Definition of_Z (z : Z) : option float :=
  match binary_normalize prec emax z 0 false with
  | S754_infinity _ => None
  | sf => Some (SF2Prim sf)
  end.

(** The implicit conversion of a length in [n * 1.2]; no list is long
    enough to overflow a double. *)
Definition of_nat (n : nat) : float :=
  SF2Prim (binary_normalize prec emax (Z.of_nat n) 0 false).

(** The correctly rounded quotient [sign (m / d)] of two positive
    integers, as [int / int] and [float(str)] compute it. *)
Definition round_quotient (neg : bool) (m d : positive) : float :=
  let '(q, e, l) := SFdiv_core_binary prec emax (Zpos m) 0 (Zpos d) 0 in
  SF2Prim (binary_round_aux prec emax neg q e l).

(** [a / b] on integers, for a positive divisor. *)
Definition truediv (a : Z) (b : positive) : float :=
  match a with
  | Z0 => 0
  | Zpos m => round_quotient false m b
  | Zneg m => round_quotient true m b
  end.

(** [float(text)] for the decimal number [(-1)^neg * m * 10^e]. *)
Definition of_decimal (neg : bool) (m : Z) (e : Z) : float :=
  match m with
  | Zpos p =>
      match e with
      | Zneg k => round_quotient neg p (10 ^ k)%positive
      | _ =>
          SF2Prim (binary_normalize prec emax
                     ((if neg then -1 else 1) * (Zpos p * 10 ^ e))%Z 0 false)
      end
  | _ => if neg then -0 else 0
  end.

(** The integer nearest to [m * 2^e], ties to even. *)
Definition round_half_even (m e : Z) : Z :=
  match e with
  | Zneg k =>
      let d := Zpos (2 ^ k) in
      let q := (m / d)%Z in
      match (2 * (m mod d) ?= d)%Z with
      | Lt => q
      | Gt => (q + 1)%Z
      | Eq => if Z.even q then q else (q + 1)%Z
      end
  | _ => (m * 2 ^ e)%Z
  end.

Definition two_digits (n : Z) : string :=
  PyStr.of_nat (Z.to_nat (n / 10)) ++ PyStr.of_nat (Z.to_nat (n mod 10)).

(** [f"{x:.2f}"]. *)
Definition format_2f (x : float) : string :=
  let sign (s : bool) := if s then "-" else "" in
  match Prim2SF x with
  | S754_nan => "nan"
  | S754_infinity s => sign s ++ "inf"
  | S754_zero s => sign s ++ "0.00"
  | S754_finite s m e =>
      let n := round_half_even (Zpos m * 100) e in
      sign s ++ PyStr.of_nat (Z.to_nat (n / 100)) ++ "."
        ++ two_digits (n mod 100)
  end.

End PyFloat.

(** ** JSON values and the decoder behind [json.loads] *)

Inductive json :=
| JNull
| JBool (b : bool)
| JInt (z : Z)
| JFloat (f : float)
| JStr (s : string)
| JList (items : list json)
| JDict (pairs : list (string * json)).

Module Json.

(** [WHITESPACE] of the decoder: space, tab, line feed, carriage return. *)
Definition ws (c : ascii) : bool :=
  match PyStr.code c with
  | 32 | 9 | 10 | 13 => true
  | _ => false
  end.

Fixpoint skip_ws (s : string) : string :=
  match s with
  | EmptyString => EmptyString
  | String c r => if ws c then skip_ws r else s
  end.

Definition digit (c : ascii) : option Z :=
  if PyStr.between 48 57 c then Some (Z.of_nat (PyStr.code c) - 48)%Z
  else None.

Definition hex_digit (c : ascii) : option Z :=
  if PyStr.between 48 57 c then Some (Z.of_nat (PyStr.code c) - 48)%Z
  else if PyStr.between 97 102 c then Some (Z.of_nat (PyStr.code c) - 87)%Z
  else if PyStr.between 65 70 c then Some (Z.of_nat (PyStr.code c) - 55)%Z
  else None.

(** The four hexadecimal digits of a [\uXXXX] escape. *)
Definition hex4 (s : string) : option (Z * string) :=
  match s with
  | String a (String b (String c (String d r))) =>
      h1 ← hex_digit a; h2 ← hex_digit b; h3 ← hex_digit c;
      h4 ← hex_digit d;
      Some (((h1 * 16 + h2) * 16 + h3) * 16 + h4, r)%Z
  | _ => None
  end.

Definition byte (z : Z) : ascii := ascii_of_nat (Z.to_nat z).

(** The characters of [chr(u)], as UTF-8. *)
Definition chr (u : Z) : list ascii :=
  if (u <? 128)%Z then [byte u]
  else if (u <? 2048)%Z then [byte (192 + u / 64); byte (128 + u mod 64)]
  else if (u <? 65536)%Z then
    [byte (224 + u / 4096); byte (128 + (u / 64) mod 64);
     byte (128 + u mod 64)]
  else
    [byte (240 + u / 262144); byte (128 + (u / 4096) mod 64);
     byte (128 + (u / 64) mod 64); byte (128 + u mod 64)].

Definition simple_escape (c : ascii) : option ascii :=
  match PyStr.code c with
  | 34 => Some "034"%char
  | 92 => Some "\"%char
  | 47 => Some "/"%char
  | 98 => Some "008"%char
  | 102 => Some "012"%char
  | 110 => Some "010"%char
  | 114 => Some "013"%char
  | 116 => Some "009"%char
  | _ => None
  end.

(** A high surrogate followed by an escaped low surrogate is one
    character; anything else after it is left in place. *)
Definition join_surrogate (u : Z) (r : string) : Z * string :=
  if ((55296 <=? u) && (u <=? 56319))%Z then
    match r with
    | String "\" (String "u" r2) =>
        match hex4 r2 with
        | Some (u2, r3) =>
            if ((56320 <=? u2) && (u2 <=? 57343))%Z
            then (65536 + ((u - 55296) * 1024 + (u2 - 56320)), r3)%Z
            else (u, r)
        | None => (u, r)
        end
    | _ => (u, r)
    end
  else (u, r).

(** [scanstring] in strict mode, entered after the opening quote; [n]
    bounds the characters still to read and [acc] is the text read so
    far, in reverse. *)
Fixpoint scanstring (n : nat) (s : string) (acc : list ascii)
    : option (string * string) :=
  match n, s with
  | S n, String c r =>
      if Ascii.eqb c "034" then Some (string_of_list_ascii (rev acc), r)
      else if Ascii.eqb c "\" then
        match r with
        | String "u" r1 =>
            '(u, r2) ← hex4 r1;
            let '(u, r3) := join_surrogate u r2 in
            scanstring n r3 (rev (chr u) ++ acc)
        | String e r1 =>
            ch ← simple_escape e; scanstring n r1 (ch :: acc)
        | EmptyString => None
        end
      else if (PyStr.code c <? 32)%nat then None
      else scanstring n r (c :: acc)
  | _, _ => None
  end.

(** A maximal run of decimal digits: its value, its length, the rest. *)
Fixpoint digits (s : string) (v : Z) (k : nat) : Z * nat * string :=
  match s with
  | String c r =>
      match digit c with
      | Some d => digits r (v * 10 + d)%Z (S k)
      | None => (v, k, s)
      end
  | EmptyString => (v, k, s)
  end.

(** The integer part [0|[1-9][0-9]*] of [NUMBER_RE]. *)
Definition int_part (s : string) : option (Z * nat * string) :=
  match s with
  | String "0" r => Some (0%Z, 1, r)
  | String c r =>
      match digit c with
      | Some _ => Some (digits s 0 0)
      | None => None
      end
  | EmptyString => None
  end.

(** The optional fraction [\.[0-9]+]: the mantissa extended by the
    fraction digits and their number. *)
Definition frac_part (m : Z) (s : string) : option (Z * nat * string) :=
  match s with
  | String "." r =>
      match digits r m 0 with
      | (_, O, _) => None
      | res => Some res
      end
  | _ => None
  end.

(** The optional exponent [[eE][-+]?[0-9]+]. *)
Definition exp_part (s : string) : option (Z * string) :=
  match s with
  | String c r =>
      if Ascii.eqb c "e" || Ascii.eqb c "E" then
        let '(neg, r1) :=
          match r with
          | String "-" r1 => (true, r1)
          | String "+" r1 => (false, r1)
          | _ => (false, r)
          end in
        match digits r1 0 0 with
        | (_, O, _) => None
        | (e, _, r2) => Some (if neg then (- e)%Z else e, r2)
        end
      else None
  | EmptyString => None
  end.

(** The largest number of digits [int(text)] converts by default. *)
Definition max_str_digits : nat := 4300.

(** A match of [NUMBER_RE]: a [float] when a fraction or an exponent is
    present, an [int] otherwise.  [None] when nothing matches,
    [Some None] when the conversion of the match raises. *)
Definition number (s : string) : option (option (json * string)) :=
  let '(neg, s1) :=
    match s with
    | String "-" r => (true, r)
    | _ => (false, s)
    end in
  match int_part s1 with
  | None => None
  | Some (m, k, r) =>
      let '(m1, nfrac, r1, has_frac) :=
        match frac_part m r with
        | Some (m1, nfrac, r1) => (m1, nfrac, r1, true)
        | None => (m, 0, r, false)
        end in
      let '(e, r2, has_exp) :=
        match exp_part r1 with
        | Some (e, r2) => (e, r2, true)
        | None => (0%Z, r1, false)
        end in
      if has_frac || has_exp
      then Some (Some (JFloat (PyFloat.of_decimal neg m1
                                 (e - Z.of_nat nfrac)), r2))
      else if (max_str_digits <? k)%nat then Some None
      else Some (Some (JInt (if neg then (- m)%Z else m), r2))
  end.

Definition literal (lit : string) (v : json) (s : string)
    : option (json * string) :=
  if String.prefix lit s
  then Some (v, substring (String.length lit)
                  (String.length s - String.length lit) s)
  else None.

(** The members of an object, entered after the opening quote of a
    key; [scan] decodes one value. *)
Fixpoint pairs (scan : string -> option (json * string)) (n : nat)
    (s : string) (acc : list (string * json)) : option (json * string) :=
  match n with
  | O => None
  | S n =>
      '(key, r) ← scanstring (String.length s) s [];
      match skip_ws r with
      | String ":" r =>
          '(v, r) ← scan (skip_ws r);
          match skip_ws r with
          | String "}" r => Some (JDict (rev ((key, v) :: acc)), r)
          | String "," r =>
              match skip_ws r with
              | String "034" r => pairs scan n r ((key, v) :: acc)
              | _ => None
              end
          | _ => None
          end
      | _ => None
      end
  end.

(** The elements of a non-empty array. *)
Fixpoint items (scan : string -> option (json * string)) (n : nat)
    (s : string) (acc : list json) : option (json * string) :=
  match n with
  | O => None
  | S n =>
      '(v, r) ← scan s;
      match skip_ws r with
      | String "]" r => Some (JList (rev (v :: acc)), r)
      | String "," r => items scan n (skip_ws r) (v :: acc)
      | _ => None
      end
  end.

(** [scan_once]: one value at the head of [s]; [fuel] bounds the
    nesting depth. *)
Fixpoint scan_once (fuel : nat) (s : string) : option (json * string) :=
  match fuel with
  | O => None
  | S fuel =>
      match s with
      | String "034" r =>
          '(str, r) ← scanstring (String.length r) r []; Some (JStr str, r)
      | String "{" r =>
          match skip_ws r with
          | String "}" r => Some (JDict [], r)
          | String "034" r => pairs (scan_once fuel) (String.length r) r []
          | _ => None
          end
      | String "[" r =>
          match skip_ws r with
          | String "]" r => Some (JList [], r)
          | r => items (scan_once fuel) (String.length r) r []
          end
      | String "n" _ => literal "null" JNull s
      | String "t" _ => literal "true" (JBool true) s
      | String "f" _ => literal "false" (JBool false) s
      | _ =>
          match number s with
          | Some res => res
          | None =>
              match s with
              | String "N" _ => literal "NaN" (JFloat nan) s
              | String "I" _ => literal "Infinity" (JFloat infinity) s
              | String "-" _ =>
                  literal "-Infinity" (JFloat neg_infinity) s
              | _ => None
              end
          end
      end
  end.

(** [json.loads(s)]: one value between optional white space, [None]
    when the decoder raises; nesting is at most the length of [s]. *)
Definition loads (s : string) : option json :=
  '(v, r) ← scan_once (S (String.length s)) (skip_ws s);
  match skip_ws r with
  | EmptyString => Some v
  | _ => None
  end.

(** [d.get(k)]: a later pair of the document overrides an earlier one
    with the same key. *)
Definition get (k : string) (pairs : list (string * json)) : option json :=
  snd <$> List.find (fun p => String.eqb (fst p) k) (rev pairs).

End Json.

(** ** Exceptions, and functions that may raise *)

Inductive exn :=
| ValueError (msg : string)
| JSONDecodeError
| TypeError
| AttributeError
| OverflowError
| ValidationError
| ServiceError (msg : string).

Notation "x <-- e ;; k" :=
  (match e with inl err => inl err | inr x => k end)
  (at level 100, e at next level, k at level 200, right associativity,
   only parsing).

(** ** Stable descending sort: [list.sort(key=..., reverse=True)]

    The sort compares keys with [<] only and keeps the original order of
    items whose keys do not compare as smaller or greater. *)

Fixpoint insert_desc {A} (key : A -> float) (x : A) (l : list A) : list A :=
  match l with
  | [] => [x]
  | y :: l' =>
      if (key x <? key y)%float then y :: insert_desc key x l' else x :: l
  end.

Definition sort_desc {A} (key : A -> float) (l : list A) : list A :=
  foldr (insert_desc key) [] l.

(** A float that compares with itself, that is, any float but NaN. *)
Definition ordered (x : float) : Prop := (x <=? x)%float = true.

(** Adjacent items of a descending list: the later key is at most the
    earlier one. *)
Definition ge_key {A} (key : A -> float) (a b : A) : Prop :=
  (key b <=? key a)%float = true.

(** ** Data model *)

(** A [datetime] value, by what [astimezone(timezone.utc)] makes of
    it: the instant it denotes, in microseconds since the epoch, or an
    exception, when the value is out of the range of the conversion. *)
Inductive datetime :=
| Instant (us : Z)
| OutOfRange.

Definition astimezone_utc (d : datetime) : exn + Z :=
  match d with
  | Instant us => inr us
  | OutOfRange => inl OverflowError
  end.

(** A candidate item.  [created_at] is the creation timestamp; it is
    [None] when the field is missing or is not a [datetime]. *)
Module Digest.
Record t := mk {
  id : string;
  title : option string;
  summary : option string;
  article_type : string;
  created_at : option datetime
}.
End Digest.

(** The reader profile ([USER_PROFILE]). *)
Module Profile.
Record t := mk {
  name : option string;
  background : option string;
  expertise_level : option string;
  interests : list string;
  preferences : gmap string bool
}.
End Profile.

(** A shortlisted copy of an item, annotated by the pre-ranker. *)
Record scored := mk_scored {
  item : Digest.t;
  _heur_score : float;
  _heur_why : string
}.

(** The output schema; [RankedArticle_init] is the validating
    constructor (score within [0, 10], rank at least 1). *)
Record RankedArticle := mk_RankedArticle {
  digest_id : string;
  relevance_score : float;
  rank : Z;
  reasoning : string
}.

Definition RankedArticle_init (digest_id : string) (relevance_score : float)
    (rank : Z) (reasoning : string) : exn + RankedArticle :=
  if (0 <=? relevance_score)%float && (relevance_score <=? 10)%float
     && (1 <=? rank)%Z
  then inr (mk_RankedArticle digest_id relevance_score rank reasoning)
  else inl ValidationError.

(** ** The prompt *)

Definition LLM_SCORE_PROMPT : string :=
  PyStr.join PyStr.nl
    [ "You are an AI news curator.";
      "";
      "You will receive a list of digests (id, title, summary, type) and a user profile.";
      "Your job: assign a relevance_score (0.0 to 10.0) for EACH digest.";
      "";
      "IMPORTANT OUTPUT RULES:";
      "- Return ONLY valid JSON";
      "- Do NOT include markdown";
      "- Do NOT include explanations outside JSON";
      "- Do NOT include rank";
      "- JSON format must be EXACTLY:";
      "{";
      PyStr.dq "  'articles': [";
      PyStr.dq "    {'digest_id': '...', 'relevance_score': 7.5},";
      "    ...";
      "  ]";
      "}";
      "" ].

(** ** Helper utils, continued *)

(** A clock reading, in microseconds since the epoch.  The clock is an
    oracle [clk]: its [t]-th reading is [clk t], and a computation that
    reads it threads the number of readings made so far. *)
Definition Clock (A : Type) : Type := nat -> A * nat.

Definition _now_utc (clk : nat -> Z) : Clock Z := fun t => (clk t, S t).

(** The fence removal of [_extract_json], on the stripped text: the
    piece after the opening fence is kept, without a leading language
    tag. *)
Definition remove_fences (text : string) : string :=
  if PyStr.startswith text "```" then
    let parts := PyStr.split text "```" in
    match parts with
    | _ :: part1 :: _ =>
        let text := PyStr.strip part1 in
        PyStr.strip (PyStr.sub_json_tag text)
    | _ => text
    end
  else text.

Definition _extract_json (text : option string) : exn + string :=
  let text := PyStr.strip (default "" text) in
  (* remove code fences if model used them *)
  let text := remove_fences text in
  (* extract outermost JSON object *)
  let start := PyStr.find text "{" in
  let end_ := PyStr.rfind text "}" in
  if (start =? -1)%Z || (end_ =? -1)%Z || (end_ <=? start)%Z
  then inl (ValueError "No JSON object found in LLM response")
  else inr (PyStr.slice text start (end_ + 1)).

(** ** The curator agent *)

Record CuratorAgent := mk_CuratorAgent {
  user_profile : Profile.t;
  interest_tokens : gset string;
  boost_terms : gset string;
  down_terms : gset string
}.

(** [prefs.get(flag)] as a condition: a missing flag is falsy. *)
Definition enabled (prefs : gmap string bool) (flag : string) : bool :=
  default false (prefs !! flag).

(** [set.update(terms)] under a condition. *)
Definition update_if (b : bool) (terms : list string) (s : gset string)
    : gset string :=
  if b then s ∪ list_to_set terms else s.

(** [CuratorAgent.__init__], without the service client it creates. *)
Definition CuratorAgent_init (user_profile : Profile.t) : CuratorAgent :=
  (* Build interest vocabulary once *)
  let interests_text := PyStr.join " " (Profile.interests user_profile) in
  let interest_tokens := list_to_set (_tokenize (Some interests_text)) in
  (* Optional preference boost words *)
  let prefs := Profile.preferences user_profile in
  let boost_terms :=
    update_if (enabled prefs "prefer_production_realism")
      ["production"; "deployment"; "monitoring"; "incident"; "cost"]
    (update_if (enabled prefs "prefer_implementation_details")
      ["implementation"; "benchmark"; "evaluation"; "metrics"; "code"]
    (update_if (enabled prefs "prefer_system_design")
      ["architecture"; "pipeline"; "scalability"; "latency"; "reliability"]
      ∅)) in
  let down_terms :=
    update_if (enabled prefs "avoid_marketing_hype")
      ["webinar"; "register"; "limited"; "launch"; "partnership"] ∅ in
  mk_CuratorAgent user_profile interest_tokens boost_terms down_terms.

(** *** Stage A: deterministic pre-rank *)

(** The recency boost of an item created at instant [created], read at
    instant [now]. *)
Definition recency_boost (now created : Z) : float :=
  let total_seconds := PyFloat.truediv (now - created) 1000000 in
  let age_h := PyFloat.max 0 (total_seconds / 3600)%float in
  PyFloat.max 0 (1.5 - (age_h / 24) * 1.5)%float.

(** The token set of an item: [set(_tokenize(f"{title} {summary}"))]. *)
Definition digest_tokens (d : Digest.t) : gset string :=
  let title := default "" (Digest.title d) in
  let summary := default "" (Digest.summary d) in
  let t := title ++ " " ++ summary in
  list_to_set (_tokenize (Some t)).

Definition _heuristic_score (clk : nat -> Z) (self : CuratorAgent)
    (d : Digest.t) : Clock (float * string) := fun t =>
  let toks := digest_tokens d in
  let interest_hits := size (toks ∩ interest_tokens self) in
  let boost_hits := size (toks ∩ boost_terms self) in
  let down_hits := size (toks ∩ down_terms self) in

  let base :=
    (PyFloat.of_nat interest_hits * 1.2 + PyFloat.of_nat boost_hits * 0.8
     - PyFloat.of_nat down_hits * 0.7)%float in

  (* recency boost if created_at exists; the clock is read before the
     timestamp is converted, and a failed conversion leaves 0.0 *)
  let '(recency, t) :=
    match Digest.created_at d with
    | Some created_at =>
        let '(now, t) := _now_utc clk t in
        match astimezone_utc created_at with
        | inr created => (recency_boost now created, t)
        | inl _ => (0%float, t)
        end
    | None => (0%float, t)
    end in

  let score := (base + recency)%float in
  let why :=
    "interest=" ++ PyStr.of_nat interest_hits
      ++ ", boost=" ++ PyStr.of_nat boost_hits
      ++ ", recency=" ++ PyFloat.format_2f recency in
  ((score, why), t).

(** The scoring loop of [_pre_rank]. *)
Fixpoint score_all (clk : nat -> Z) (self : CuratorAgent)
    (digests : list Digest.t) : Clock (list scored) := fun t =>
  match digests with
  | [] => ([], t)
  | d :: rest =>
      let '((s, why), t) := _heuristic_score clk self d t in
      let '(scored, t) := score_all clk self rest t in
      (mk_scored d s why :: scored, t)
  end.

Definition _pre_rank (clk : nat -> Z) (self : CuratorAgent)
    (digests : list Digest.t) (keep : nat) : Clock (list scored) := fun t =>
  let '(scored, t) := score_all clk self digests t in
  let scored := sort_desc _heur_score scored in
  (take keep scored, t).

(** *** Stage B: LLM scoring (small output) *)

(** The chat completion request, and what the service call comes to:
    it raises, or returns the content of the first choice. *)
Record request := mk_request {
  model : string;
  temperature : float;
  max_tokens : Z;
  system : string;
  user_prompt : string
}.

Inductive completion :=
| Raised (e : exn)
| Returned (content : option string).

(** One block of the digest list. *)
Definition digest_block (d : scored) : string :=
  "ID: " ++ Digest.id (item d) ++ PyStr.nl
    ++ "Title: " ++ PyStr.fmt (Digest.title (item d)) ++ PyStr.nl
    ++ "Summary: " ++ PyStr.fmt (Digest.summary (item d)) ++ PyStr.nl
    ++ "Type: " ++ Digest.article_type (item d).

Definition build_request (self : CuratorAgent) (shortlisted : list scored)
    : request :=
  (* Keep prompt small: id/title/summary/type only *)
  let digest_list :=
    PyStr.join (PyStr.nl ++ PyStr.nl) (digest_block <$> shortlisted) in
  let profile := user_profile self in
  let system :=
    LLM_SCORE_PROMPT ++ PyStr.nl ++ PyStr.nl
      ++ "User Profile:" ++ PyStr.nl
      ++ "Name: " ++ PyStr.fmt (Profile.name profile) ++ PyStr.nl
      ++ "Background: " ++ PyStr.fmt (Profile.background profile) ++ PyStr.nl
      ++ "Expertise Level: " ++ PyStr.fmt (Profile.expertise_level profile)
      ++ PyStr.nl
      ++ "Interests: " ++ PyStr.join ", " (Profile.interests profile) in
  let user_prompt :=
    "Score these " ++ PyStr.of_nat (length shortlisted)
      ++ " digests by relevance. Return JSON only." ++ PyStr.nl ++ PyStr.nl
      ++ digest_list ++ PyStr.nl in
  mk_request "llama-3.1-8b-instant" 0.2 450 system user_prompt.

(** The truth value of [item.get(key)]. *)
Definition truthy (v : option json) : bool :=
  match v with
  | None | Some JNull => false
  | Some (JBool b) => b
  | Some (JInt z) => negb (z =? 0)%Z
  | Some (JFloat f) => negb (f =? 0)%float
  | Some (JStr s) => negb (String.eqb s "")
  | Some (JList l) => negb (bool_decide (l = []))
  | Some (JDict kvs) => negb (bool_decide (kvs = []))
  end.

(** [isinstance(sc, (int, float))] together with [float(sc)]: [None]
    when [sc] is no number, [Some None] when the conversion overflows. *)
Definition as_number (v : option json) : option (option float) :=
  match v with
  | Some (JBool b) => Some (Some (if b then 1 else 0)%float)
  | Some (JInt z) => Some (PyFloat.of_Z z)
  | Some (JFloat f) => Some (Some f)
  | _ => None
  end.

(** [for item in v]: the items a decoded value yields. *)
Definition iterate (v : json) : exn + list json :=
  match v with
  | JList l => inr l
  | JDict kvs => inr (JStr <$> rev (remove_dups (rev (fst <$> kvs))))
  | JStr s =>
      inr ((fun c => JStr (String c EmptyString)) <$> list_ascii_of_string s)
  | _ => inl TypeError
  end.

(** The loop that fills [scores].  An identifier that is hashable but
    no string is stored under a key no shortlisted identifier equals,
    so the map of string keys is unchanged. *)
Fixpoint collect_scores (items : list json) (scores : gmap string float)
    : exn + gmap string float :=
  match items with
  | [] => inr scores
  | JDict kvs :: rest =>
      let did := Json.get "digest_id" kvs in
      let sc := Json.get "relevance_score" kvs in
      match truthy did, as_number sc with
      | true, Some None => inl OverflowError
      | true, Some (Some f) =>
          match did with
          | Some (JStr k) => collect_scores rest (<[k := f]> scores)
          | Some (JList _) | Some (JDict _) => inl TypeError
          | _ => collect_scores rest scores
          end
      | _, _ => collect_scores rest scores
      end
  | _ :: _ => inl AttributeError
  end.

(** What follows the service call in [_llm_score]: the reply text is
    reduced to its JSON span, decoded, and read into the score map. *)
Definition parse_scores (content : option string)
    : exn + gmap string float :=
  let text := PyStr.strip (default "" content) in
  json_text <-- _extract_json (Some text) ;;
  match Json.loads json_text with
  | None => inl JSONDecodeError
  | Some (JDict kvs) =>
      items <-- match Json.get "articles" kvs with
                | Some v => iterate v
                | None => inr []
                end ;;
      collect_scores items ∅
  | Some _ => inl AttributeError
  end.

Definition _llm_score (llm : request -> completion) (self : CuratorAgent)
    (shortlisted : list scored) : exn + gmap string float :=
  match llm (build_request self shortlisted) with
  | Raised e => inl e
  | Returned content => parse_scores content
  end.

(** *** The ranking coordinator *)

Definition PRE_RANK_KEEP : nat := 25.

(** [max(0.0, min(10.0, x))]. *)
Definition clamp (x : float) : float :=
  PyFloat.max 0 (PyFloat.min 10 x).

(** [max(0.0, min(10.0, 3.0 + min(7.0, h)))], written out twice in
    [rank_digests]. *)
Definition fallback_score (h : float) : float :=
  clamp (3 + PyFloat.min 7 h)%float.

Definition row : Type := string * float * string.

Definition row_score (r : row) : float := snd (fst r).

(** One row of the merge loop. *)
Definition merge_row (llm_scores : gmap string float) (d : scored) : row :=
  let did := Digest.id (item d) in
  match llm_scores !! did with
  | Some sc =>
      (did, clamp sc,
       "LLM relevance score (shortlisted after heuristic pre-rank)")
  | None =>
      (did, fallback_score (_heur_score d),
       "Fallback heuristic (LLM did not return score): " ++ _heur_why d)
  end.

(** One row of the handler of a failed scoring step. *)
Definition fallback_row (d : scored) : row :=
  (Digest.id (item d), fallback_score (_heur_score d),
   "Heuristic ranking (no LLM): " ++ _heur_why d).

(** [for idx, (digest_id, score, reasoning) in enumerate(rows, start=idx)]. *)
Fixpoint assign_ranks (idx : Z) (rows : list row)
    : exn + list RankedArticle :=
  match rows with
  | [] => inr []
  | (digest_id, score, reasoning) :: rest =>
      a <-- RankedArticle_init digest_id score idx reasoning ;;
      ranked <-- assign_ranks (idx + 1) rest ;;
      inr (a :: ranked)
  end.

(** The row a ranked article was built from, and the list the loop
    builds when every row passes validation. *)
Definition row_of (a : RankedArticle) : row :=
  (digest_id a, relevance_score a, reasoning a).

Fixpoint ranked_from (idx : Z) (rows : list row) : list RankedArticle :=
  match rows with
  | [] => []
  | (digest_id, score, reasoning) :: rest =>
      mk_RankedArticle digest_id score idx reasoning
        :: ranked_from (idx + 1) rest
  end.

(** A score within the closed interval [0, 10]. *)
Definition in_range (x : float) : Prop :=
  (0 <=? x)%float = true /\ (x <=? 10)%float = true.

(** The shortlist [rank_digests] works on. *)
Definition shortlist (clk : nat -> Z) (self : CuratorAgent)
    (digests : list Digest.t) : list scored :=
  fst (_pre_rank clk self digests
         (Nat.min PRE_RANK_KEEP (length digests)) 0).

(** The rows before the final sort: the merge on success, the handler's
    rows when the scoring step raised (the handler also prints a line,
    which is not modelled). *)
Definition final_rows (llm : request -> completion) (self : CuratorAgent)
    (shortlisted : list scored) : list row :=
  match _llm_score llm self shortlisted with
  | inr llm_scores => merge_row llm_scores <$> shortlisted
  | inl _ => fallback_row <$> shortlisted
  end.

Definition rank_digests (clk : nat -> Z) (llm : request -> completion)
    (self : CuratorAgent) (digests : list Digest.t)
    : exn + list RankedArticle :=
  match digests with
  | [] => inr []
  | _ =>
      (* 1) Pre-rank *)
      let shortlisted := shortlist clk self digests in
      (* 2) LLM scores only shortlisted items; 3) fallback *)
      let rows := final_rows llm self shortlisted in
      (* 4) Sort and assign rank *)
      let rows := sort_desc row_score rows in
      assign_ranks 1 rows
  end.

(** ** Sample data *)

Module Sample.

Definition profile : Profile.t :=
  Profile.mk (Some "Rachit") (Some "Applied AI engineer")
    (Some "Intermediate to Advanced")
    ["Retrieval-Augmented Generation (RAG) systems";
     "Production deployment of AI models"]
    (list_to_map [("prefer_system_design", true);
                  ("avoid_marketing_hype", true)]).

Definition agent : CuratorAgent := CuratorAgent_init profile.

Definition d1 : Digest.t :=
  Digest.mk "openai:1" (Some "Retrieval systems in production")
    (Some "A pipeline with low latency") "openai" None.
Definition d2 : Digest.t :=
  Digest.mk "youtube:2" (Some "Register for our launch webinar")
    (Some "Limited seats") "youtube" None.
Definition d3 : Digest.t :=
  Digest.mk "anthropic:3" (Some "Deployment notes") None "anthropic"
    (Some (Instant 0)).

Definition pool : list Digest.t := [d1; d2; d3].

(** A fenced reply that scores one shortlisted item and one unknown
    identifier. *)
Definition partial_reply : string :=
  PyStr.dq "```json {'articles': [{'digest_id': 'youtube:2', 'relevance_score': 12}, {'digest_id': 'zzz', 'relevance_score': 1}]}```".

(** An item that hits no vocabulary, and an item with a summary of
    [n] characters. *)
Definition d4 : Digest.t :=
  Digest.mk "openai:4" (Some "Hello world") (Some "") "openai" None.

Fixpoint filler (n : nat) : string :=
  match n with
  | O => EmptyString
  | S n => String "a" (filler n)
  end.

Definition long (n : nat) : scored :=
  mk_scored (Digest.mk "openai:5" (Some "Title") (Some (filler n))
               "openai" None) 0 "".

Definition clk0 : nat -> Z := fun _ => 0%Z.
(** A clock that reads two days after the epoch. *)
Definition clk2d : nat -> Z := fun _ => 172800000000%Z.
Definition down : request -> completion :=
  fun _ => Raised (ServiceError "timeout").
Definition reply (text : string) : request -> completion :=
  fun _ => Returned (Some text).

End Sample.

(** ** Shapes used to state further properties *)

(** An entry of the reply in the shape the prompt asks for. *)
Definition entry (did : string) (score : float) : json :=
  JDict [("digest_id", JStr did); ("relevance_score", JFloat score)].

(** The characters of a text. *)
Abbreviation chars := list_ascii_of_string.

(** An object of the reply that the loop of [_llm_score] reads a score
    from: its identifier is truthy and its score is a number. *)
Definition accepted (item : json) : bool :=
  match item with
  | JDict kvs =>
      truthy (Json.get "digest_id" kvs)
      && bool_decide (is_Some (as_number (Json.get "relevance_score" kvs)))
  | _ => false
  end.

Definition is_object (item : json) : Prop :=
  match item with JDict _ => True | _ => False end.

(** ** The digest agent: the prompt of [generate_digest]

    A character of a text is a byte that starts a UTF-8 sequence; the
    bytes that continue one are 0x80-0xBF. *)
Definition starts_char (c : ascii) : bool := negb (PyStr.between 128 191 c).

Definition char_count (s : string) : nat :=
  length (List.filter starts_char (chars s)).

(** [s[:n]]: the first [n] characters of [s]. *)
Fixpoint take_chars (n : nat) (s : string) : string :=
  match s with
  | EmptyString => EmptyString
  | String c r =>
      if starts_char c then
        match n with
        | O => EmptyString
        | S k => String c (take_chars k r)
        end
      else String c (take_chars n r)
  end.

(** The bound of the slice [content[:8000]]. *)
#[warnings="-abstract-large-number"]
Definition CONTENT_LIMIT : nat := 8000.

(** The user prompt of [DigestAgent.generate_digest]. *)
Definition digest_user_prompt (title content article_type : string)
    : string :=
  "Create a digest for this " ++ article_type ++ "." ++ PyStr.nl
    ++ "Title: " ++ title ++ PyStr.nl
    ++ "Content:" ++ PyStr.nl ++ take_chars CONTENT_LIMIT content.

(** The texts in which [c] occurs. *)
Definition has_char (c : ascii) (s : string) : Prop := c ∈ chars s.

(** The texts in which [s] occurs as one piece. *)
Definition occurs_in (s t : string) : Prop :=
  exists pre post, t = pre ++ s ++ post.

(** The sign classes of a float seen through [Prim2SF]: not above
    zero (NaN included) and not below zero (NaN included). *)
Definition nonpos_class (x : spec_float) : bool :=
  match x with
  | S754_zero _ | S754_finite true _ _ | S754_infinity true | S754_nan => true
  | _ => false
  end.

Definition nonneg_class (x : spec_float) : bool :=
  match x with
  | S754_zero _ | S754_finite false _ _ | S754_infinity false | S754_nan =>
      true
  | _ => false
  end.

(** More sample data. *)
Module Cases.

(** A reply that scores the three items of [Sample.pool] alike. *)
Definition flat_reply : string :=
  PyStr.dq "{'articles': [{'digest_id': 'openai:1', 'relevance_score': 5}, {'digest_id': 'youtube:2', 'relevance_score': 5}, {'digest_id': 'anthropic:3', 'relevance_score': 5}]}".

Definition flat_scores : gmap string float :=
  <["openai:1" := 5%float]>
    (<["youtube:2" := 5%float]> (<["anthropic:3" := 5%float]> ∅)).

(** An item whose timestamp is out of the range of the conversion. *)
Definition d6 : Digest.t :=
  Digest.mk "openai:6" (Some "Deployment notes") None "openai"
    (Some OutOfRange).

End Cases.

(** * Properties *)

(** ** Order on floats *)

Section FloatOrder.

Local Open Scope float_scope.

Lemma SFcompare_swap x y :
  SFcompare y x = option_map CompOpp (SFcompare x y).
Proof.
  destruct x as [[]|[]| |[] m1 e1], y as [[]|[]| |[] m2 e2];
    simpl; try reflexivity.
  all: rewrite (Z.compare_antisym e1 e2); destruct (e1 ?= e2)%Z;
    simpl; try reflexivity.
  all: rewrite (Pos.compare_cont_antisym m1 m2 Eq); simpl;
    try reflexivity.
  all: destruct (Pos.compare_cont Eq m1 m2); reflexivity.
Qed.

Lemma SFcompare_Eq_trans x y s :
  SFcompare x s = Some Eq -> SFcompare y s = Some Eq ->
  SFcompare x y = Some Eq.
Proof.
  destruct x as [[]|[]| |[] m1 e1], y as [[]|[]| |[] m2 e2],
    s as [[]|[]| |[] m3 e3]; simpl; try discriminate; try reflexivity.
  all: destruct (Z.compare_spec e1 e3); try discriminate;
    destruct (Z.compare_spec e2 e3); try discriminate; subst;
    rewrite Z.compare_refl.
  all: change (Pos.compare_cont Eq) with Pos.compare.
  all: destruct (Pos.compare_spec m1 m3); try discriminate;
    destruct (Pos.compare_spec m2 m3); try discriminate; subst;
    rewrite Pos.compare_refl; reflexivity.
Qed.

Lemma ltb_leb a b : (a <? b) = true -> (a <=? b) = true.
Proof.
  rewrite FloatAxioms.ltb_spec, FloatAxioms.leb_spec. unfold SFltb, SFleb.
  destruct (SFcompare _ _) as [[]|]; congruence.
Qed.

Lemma ltb_asym a b : (a <? b) = true -> (b <? a) = false.
Proof.
  rewrite !FloatAxioms.ltb_spec. unfold SFltb.
  rewrite (SFcompare_swap (Prim2SF a) (Prim2SF b)).
  destruct (SFcompare _ _) as [[]|]; simpl; congruence.
Qed.

Lemma leb_ordered_l a b : (a <=? b) = true -> ordered a.
Proof.
  unfold ordered. rewrite !FloatAxioms.leb_spec. unfold SFleb.
  destruct (Prim2SF a) as [[]|[]| |[] m e], (Prim2SF b) as [[]|[]| |[] m' e'];
    simpl; try congruence.
  all: rewrite Z.compare_refl; change (Pos.compare_cont Eq) with Pos.compare;
    rewrite Pos.compare_refl; reflexivity.
Qed.

Lemma leb_ordered_r a b : (a <=? b) = true -> ordered b.
Proof.
  unfold ordered. rewrite !FloatAxioms.leb_spec. unfold SFleb.
  destruct (Prim2SF a) as [[]|[]| |[] m' e'], (Prim2SF b) as [[]|[]| |[] m e];
    simpl; try congruence.
  all: rewrite Z.compare_refl; change (Pos.compare_cont Eq) with Pos.compare;
    rewrite Pos.compare_refl; reflexivity.
Qed.

Lemma ordered_compare a b :
  ordered a -> ordered b ->
  exists c, SFcompare (Prim2SF a) (Prim2SF b) = Some c.
Proof.
  unfold ordered. rewrite !FloatAxioms.leb_spec. unfold SFleb.
  destruct (Prim2SF a) as [[]|[]| |[] m e], (Prim2SF b) as [[]|[]| |[] m' e'];
    simpl; try congruence; eauto.
Qed.

(** On floats that are no NaN, "not smaller" is "greater or equal". *)
Lemma not_ltb_leb a b :
  ordered a -> ordered b -> (a <? b) = false -> (b <=? a) = true.
Proof.
  intros Ha Hb. destruct (ordered_compare a b Ha Hb) as [c Hc].
  rewrite FloatAxioms.ltb_spec, FloatAxioms.leb_spec. unfold SFltb, SFleb.
  rewrite (SFcompare_swap (Prim2SF a) (Prim2SF b)), Hc.
  destruct c; simpl; congruence.
Qed.

(** Two floats equal to a third one are not one below the other. *)
Lemma eqb_not_ltb a b s :
  (a =? s) = true -> (b =? s) = true -> (a <? b) = false.
Proof.
  rewrite !FloatAxioms.eqb_spec, FloatAxioms.ltb_spec. unfold SFeqb, SFltb. intros Ha Hb.
  rewrite (SFcompare_Eq_trans (Prim2SF a) (Prim2SF b) (Prim2SF s)).
  - reflexivity.
  - destruct (SFcompare (Prim2SF a) _) as [[]|]; congruence.
  - destruct (SFcompare (Prim2SF b) _) as [[]|]; congruence.
Qed.

(** [clamp] lands in [0, 10] on every float, NaN and the infinities
    included. *)
Lemma clamp_range x : (0 <=? clamp x) = true /\ (clamp x <=? 10) = true.
Proof.
  unfold clamp, PyFloat.max, PyFloat.min.
  destruct (x <? 10) eqn:Hx.
  - destruct (0 <? x) eqn:H0.
    + split; now apply ltb_leb.
    + split; reflexivity.
  - split; reflexivity.
Qed.

Lemma clamp_ordered x : ordered (clamp x).
Proof. apply (leb_ordered_r 0), clamp_range. Qed.

(** "At most" is transitive on all floats: no NaN is at most, or at
    least, anything. *)
Lemma SFleb_trans x y z :
  SFleb x y = true -> SFleb y z = true -> SFleb x z = true.
Proof.
  unfold SFleb.
  destruct x as [[]|[]| |[] m1 e1], y as [[]|[]| |[] m2 e2],
    z as [[]|[]| |[] m3 e3]; cbn [SFcompare]; try discriminate;
    try reflexivity.
  all: change (Pos.compare_cont Eq) with Pos.compare.
  all: destruct (Z.compare_spec e1 e2); try discriminate;
    destruct (Z.compare_spec e2 e3); try discriminate;
    destruct (Z.compare_spec e1 e3); try lia; try reflexivity; subst;
    try discriminate.
  all: destruct (Pos.compare_spec m1 m2); try discriminate;
    destruct (Pos.compare_spec m2 m3); try discriminate;
    destruct (Pos.compare_spec m1 m3); try lia; try reflexivity; subst;
    try discriminate; try lia.
Qed.

Lemma leb_trans a b c :
  (a <=? b) = true -> (b <=? c) = true -> (a <=? c) = true.
Proof. rewrite !FloatAxioms.leb_spec. apply SFleb_trans. Qed.

Lemma ge_key_trans {A} (key : A -> float) : Transitive (ge_key key).
Proof. intros a b c Hab Hbc. unfold ge_key in *. by eapply leb_trans. Qed.

End FloatOrder.

(** ** The stable descending sort *)

Section StableSort.

Context {A : Type} (key : A -> float).

Local Open Scope float_scope.

Lemma insert_desc_perm x l : insert_desc key x l ≡ₚ x :: l.
Proof.
  induction l as [|y l IH]; simpl; [done|].
  destruct (key x <? key y); [|done].
  rewrite IH. apply Permutation_swap.
Qed.

Lemma sort_desc_perm l : sort_desc key l ≡ₚ l.
Proof.
  induction l as [|x l IH]; simpl; [done|].
  unfold sort_desc in *. simpl. rewrite insert_desc_perm. by f_equiv.
Qed.

Lemma sort_desc_length l : length (sort_desc key l) = length l.
Proof. by rewrite sort_desc_perm. Qed.

Lemma insert_desc_HdRel y x l :
  ge_key key y x -> HdRel (ge_key key) y l ->
  HdRel (ge_key key) y (insert_desc key x l).
Proof.
  intros Hx Hl. destruct l as [|z l]; simpl; [by constructor|].
  destruct (key x <? key z); constructor; [|done].
  by inversion Hl.
Qed.

Lemma insert_desc_sorted x l :
  ordered (key x) -> Forall (fun y => ordered (key y)) l ->
  Sorted (ge_key key) l -> Sorted (ge_key key) (insert_desc key x l).
Proof.
  intros Hx. induction l as [|y l IH]; intros Hl Hs; simpl.
  - by repeat constructor.
  - apply Forall_cons in Hl as [Hy Hl]. apply Sorted_inv in Hs as [Hs Hd].
    destruct (key x <? key y) eqn:Hlt.
    + constructor; [by apply IH|].
      apply insert_desc_HdRel; [|done]. by apply ltb_leb.
    + constructor; [by constructor|]. constructor.
      by apply not_ltb_leb.
Qed.

Lemma sort_desc_sorted l :
  Forall (fun y => ordered (key y)) l -> Sorted (ge_key key) (sort_desc key l).
Proof.
  induction l as [|x l IH]; intros Hl; [constructor|].
  apply Forall_cons in Hl as [Hx Hl]. unfold sort_desc in *. simpl.
  apply insert_desc_sorted; [done| |by apply IH].
  by rewrite (sort_desc_perm l).
Qed.

Lemma Sorted_adjacent (R : A -> A -> Prop) l i a b :
  Sorted R l -> l !! i = Some a -> l !! S i = Some b -> R a b.
Proof.
  intros Hs. revert i. induction Hs as [|x l Hs IH Hd]; intros i; [done|].
  destruct i as [|i]; simpl.
  - intros [= ->] Hb. destruct l; simplify_eq/=. by inversion Hd.
  - apply IH.
Qed.

(** In a sorted list every item is at least every later one. *)
Lemma Sorted_before l i j a b :
  Sorted (ge_key key) l -> i < j ->
  l !! i = Some a -> l !! j = Some b -> ge_key key a b.
Proof.
  intros Hs. apply (@Sorted_StronglySorted _ _ (ge_key_trans key)) in Hs.
  revert i j. induction Hs as [|x l Hs IH Hall]; intros i j Hij; [done|].
  destruct i as [|i], j as [|j]; try lia; simpl.
  - intros [= <-] Hb. rewrite Forall_forall in Hall. apply Hall.
    by eapply list_elem_of_lookup_2.
  - apply IH. lia.
Qed.

(** Stability: a class of items none of which is below another keeps
    its order. *)
Lemma insert_desc_filter (P : A -> bool) x l :
  (forall a b, P a = true -> P b = true -> (key a <? key b) = false) ->
  List.filter P (insert_desc key x l) = List.filter P (x :: l).
Proof.
  intros HP. induction l as [|y l IH]; [done|].
  simpl insert_desc. destruct (key x <? key y) eqn:Hlt; [|done].
  simpl in *. rewrite IH.
  destruct (P x) eqn:Hx, (P y) eqn:Hy; try done.
  by rewrite (HP x y) in Hlt.
Qed.

Lemma sort_desc_filter (P : A -> bool) l :
  (forall a b, P a = true -> P b = true -> (key a <? key b) = false) ->
  List.filter P (sort_desc key l) = List.filter P l.
Proof.
  intros HP. induction l as [|x l IH]; [done|].
  unfold sort_desc in *. simpl foldr. rewrite insert_desc_filter by done.
  simpl. by rewrite IH.
Qed.

(** Items whose keys equal a given float keep their order. *)
Lemma sort_desc_stable s l :
  List.filter (fun a => key a =? s) (sort_desc key l)
  = List.filter (fun a => key a =? s) l.
Proof.
  apply sort_desc_filter. intros a b Ha Hb. by apply (eqb_not_ltb _ _ s).
Qed.

End StableSort.

(** ** Rank assignment *)

#[local] Arguments _heuristic_score : simpl never.
#[local] Arguments _llm_score : simpl never.

Lemma ranked_from_rows idx rows : row_of <$> ranked_from idx rows = rows.
Proof.
  revert idx. induction rows as [|[[did sc] why] rows IH]; intros idx;
    [done|]. simpl. by rewrite IH.
Qed.

Lemma ranked_from_length idx rows :
  length (ranked_from idx rows) = length rows.
Proof. by rewrite <- (ranked_from_rows idx rows) at 2; rewrite length_fmap. Qed.

Lemma ranked_from_ranks idx rows :
  rank <$> ranked_from idx rows
  = (fun i => (idx + Z.of_nat i)%Z) <$> seq 0 (length rows).
Proof.
  revert idx. induction rows as [|[[did sc] why] rows IH]; intros idx;
    [done|]. simpl. rewrite IH, <- seq_shift, <- list_fmap_compose.
  f_equal; [lia|]. apply list_fmap_ext. intros _ i _. simpl. lia.
Qed.

Lemma ranked_from_lookup idx rows i a :
  ranked_from idx rows !! i = Some a ->
  rank a = (idx + Z.of_nat i)%Z /\ rows !! i = Some (row_of a).
Proof.
  revert idx i. induction rows as [|[[did sc] why] rows IH]; intros idx i;
    [done|].
  destruct i as [|i]; simpl.
  - intros [= <-]. split; [simpl; lia|done].
  - intros Ha. destruct (IH _ _ Ha) as [-> ?]. split; [lia|done].
Qed.

(** Validation never fails on rows whose scores are within [0, 10]. *)
Lemma assign_ranks_ok idx rows :
  (1 <= idx)%Z -> Forall (fun r => in_range (row_score r)) rows ->
  assign_ranks idx rows = inr (ranked_from idx rows).
Proof.
  revert idx. induction rows as [|[[did sc] why] rows IH]; intros idx Hidx Hr;
    [done|].
  apply Forall_cons in Hr as [[H0 H10] Hr]. simpl.
  unfold RankedArticle_init. unfold row_score in H0, H10. simpl in H0, H10.
  rewrite H0, H10. simpl. destruct (Z.leb_spec 1 idx); [|lia].
  rewrite IH; [done|lia|done].
Qed.

(** ** The rows of the coordinator *)

Lemma fallback_score_range h : in_range (fallback_score h).
Proof. apply clamp_range. Qed.

Lemma merge_row_cases llm_scores d :
  merge_row llm_scores d =
    match llm_scores !! Digest.id (item d) with
    | Some sc =>
        (Digest.id (item d), clamp sc,
         "LLM relevance score (shortlisted after heuristic pre-rank)")
    | None =>
        (Digest.id (item d), fallback_score (_heur_score d),
         "Fallback heuristic (LLM did not return score): " ++ _heur_why d)
    end.
Proof. reflexivity. Qed.

Lemma merge_row_range llm_scores d :
  in_range (row_score (merge_row llm_scores d)).
Proof.
  unfold merge_row. destruct (llm_scores !! _); apply clamp_range.
Qed.

Lemma fallback_row_range d : in_range (row_score (fallback_row d)).
Proof. apply clamp_range. Qed.

Lemma final_rows_range llm self shortlisted :
  Forall (fun r => in_range (row_score r)) (final_rows llm self shortlisted).
Proof.
  unfold final_rows. destruct (_llm_score _ _ _); apply Forall_fmap;
    apply Forall_true; intros d; [apply fallback_row_range|apply merge_row_range].
Qed.

Lemma final_rows_ids llm self shortlisted :
  fst ∘ fst <$> final_rows llm self shortlisted
  = Digest.id ∘ item <$> shortlisted.
Proof.
  unfold final_rows. destruct (_llm_score _ _ _) as [e|m];
    rewrite <- list_fmap_compose; apply list_fmap_ext; intros _ d _; simpl;
    [done|]. unfold merge_row. by destruct (m !! _).
Qed.

Lemma final_rows_length llm self shortlisted :
  length (final_rows llm self shortlisted) = length shortlisted.
Proof.
  unfold final_rows. destruct (_llm_score _ _ _); by rewrite length_fmap.
Qed.

(** ** The pre-ranker *)

Lemma score_all_items clk self digests t :
  item <$> fst (score_all clk self digests t) = digests.
Proof.
  revert t. induction digests as [|d ds IH]; intros t; [done|]. simpl.
  destruct (_heuristic_score clk self d t) as [[s why] t1].
  specialize (IH t1). destruct (score_all clk self ds t1) as [l t2].
  simpl in *. by f_equal.
Qed.

(** Every annotation was computed by the heuristic scorer on the item
    that carries it. *)
Lemma score_all_annotations clk self digests t :
  Forall (fun d => exists t',
            fst (_heuristic_score clk self (item d) t')
            = (_heur_score d, _heur_why d))
         (fst (score_all clk self digests t)).
Proof.
  revert t. induction digests as [|d ds IH]; intros t; [constructor|]. simpl.
  destruct (_heuristic_score clk self d t) as [[s why] t1] eqn:Hd.
  specialize (IH t1). destruct (score_all clk self ds t1) as [l t2].
  simpl in *. constructor; [|done]. exists t. simpl. by rewrite Hd.
Qed.

Lemma shortlist_length clk self digests :
  length (shortlist clk self digests)
  = Nat.min (length digests) PRE_RANK_KEEP.
Proof.
  unfold shortlist, _pre_rank.
  pose proof (score_all_items clk self digests 0) as Hi.
  destruct (score_all clk self digests 0) as [l t]. cbn [fst] in *.
  rewrite length_take, sort_desc_length.
  rewrite <- Hi, length_fmap. unfold PRE_RANK_KEEP. lia.
Qed.

(** The shortlist is drawn from the pool. *)
Lemma shortlist_sublist clk self digests :
  item <$> shortlist clk self digests ⊆+ digests.
Proof.
  unfold shortlist, _pre_rank.
  pose proof (score_all_items clk self digests 0) as Hi.
  destruct (score_all clk self digests 0) as [l t]. cbn [fst] in *.
  rewrite <- Hi. apply fmap_submseteq.
  etrans; [apply sublist_submseteq, sublist_take|].
  by rewrite (sort_desc_perm _heur_score l).
Qed.

Lemma shortlist_annotations clk self digests :
  Forall (fun d => exists t,
            fst (_heuristic_score clk self (item d) t)
            = (_heur_score d, _heur_why d))
         (shortlist clk self digests).
Proof.
  unfold shortlist, _pre_rank.
  pose proof (score_all_annotations clk self digests 0) as Ha.
  destruct (score_all clk self digests 0) as [l t]. cbn [fst] in *.
  apply Forall_take. by rewrite (sort_desc_perm _heur_score l).
Qed.

(** ** The coordinator *)

(** [rank_digests] never raises: it returns the sorted rows, numbered
    from 1. *)
Lemma rank_digests_returns clk llm self digests :
  rank_digests clk llm self digests
  = inr (ranked_from 1
           (sort_desc row_score
              (final_rows llm self (shortlist clk self digests)))).
Proof.
  destruct digests as [|d ds].
  { change (shortlist clk self []) with (@nil scored).
    unfold final_rows. by destruct (_llm_score llm self []). }
  unfold rank_digests. apply assign_ranks_ok; [lia|].
  rewrite (sort_desc_perm row_score). apply final_rows_range.
Qed.

Lemma seq_from_1 (n : nat) :
  (fun i => (1 + Z.of_nat i)%Z) <$> seq 0 n = Z.of_nat <$> seq 1 n.
Proof.
  rewrite <- seq_shift, <- list_fmap_compose. apply list_fmap_ext.
  intros _ i _. simpl. lia.
Qed.

Lemma in_range_ordered x : in_range x -> ordered x.
Proof. intros [H0 _]. by apply (leb_ordered_r 0). Qed.

Lemma final_rows_sorted llm self shortlisted :
  Sorted (ge_key row_score)
    (sort_desc row_score (final_rows llm self shortlisted)).
Proof.
  apply sort_desc_sorted. eapply Forall_impl; [apply final_rows_range|].
  intros r. apply in_range_ordered.
Qed.

(** Each ranked article stems from one row of the sorted list, hence
    from one row before the sort. *)
Lemma ranked_from_sorted_elem (rows : list row) a :
  a ∈ ranked_from 1 (sort_desc row_score rows) -> row_of a ∈ rows.
Proof.
  intros Ha. rewrite <- (sort_desc_perm row_score rows).
  rewrite <- (ranked_from_rows 1 (sort_desc row_score rows)).
  by apply list_elem_of_fmap_2.
Qed.

(** C2: for every candidate pool, [rank_digests] returns
    min(pool size, 25) results, their ranks are exactly 1..N in this
    order (dense, without gap or duplicate), their identifiers are the
    shortlisted identifiers, and the result of an empty pool is empty. *)
Theorem rank_digests_dense_ranks clk llm self digests :
  exists ranked,
    rank_digests clk llm self digests = inr ranked /\
    length ranked = Nat.min (length digests) 25 /\
    rank <$> ranked = Z.of_nat <$> seq 1 (length ranked) /\
    digest_id <$> ranked ≡ₚ Digest.id ∘ item <$> shortlist clk self digests /\
    (digests = [] -> ranked = []).
Proof.
  eexists. split; [apply rank_digests_returns|].
  set (rows := final_rows llm self (shortlist clk self digests)).
  assert (Hlen : length (ranked_from 1 (sort_desc row_score rows))
                 = Nat.min (length digests) 25).
  { rewrite ranked_from_length, sort_desc_length. unfold rows.
    rewrite final_rows_length. apply shortlist_length. }
  repeat split.
  - exact Hlen.
  - rewrite ranked_from_ranks, ranked_from_length. apply seq_from_1.
  - rewrite <- (final_rows_ids llm self). fold rows.
    rewrite <- (sort_desc_perm row_score rows) at 2.
    rewrite <- (ranked_from_rows 1 (sort_desc row_score rows)) at 2.
    by rewrite <- list_fmap_compose.
  - intros ->. apply nil_length_inv. by rewrite Hlen.
Qed.

(** C3: every final relevance score lies in [0.0, 10.0]: on the merge
    path for every external score map, on the fallback path, and in
    every list [rank_digests] returns. *)
Theorem relevance_scores_in_range :
  (forall llm_scores d, in_range (row_score (merge_row llm_scores d))) /\
  (forall d, in_range (row_score (fallback_row d))) /\
  (forall clk llm self digests,
     exists ranked,
       rank_digests clk llm self digests = inr ranked /\
       Forall (fun a => in_range (relevance_score a)) ranked).
Proof.
  split; [apply merge_row_range|]. split; [apply fallback_row_range|].
  intros clk llm self digests. eexists. split; [apply rank_digests_returns|].
  apply Forall_forall. intros a Ha. apply ranked_from_sorted_elem in Ha.
  pose proof (final_rows_range llm self (shortlist clk self digests)) as Hr.
  rewrite Forall_forall in Hr. apply (Hr _ Ha).
Qed.

(** C4: the returned list is sorted by relevance score in non-increasing
    order (each result scores at least as much as the next one), results
    with equal scores keep the order of their rows, which is the order
    of the shortlist, and the i-th result carries rank i. *)
Theorem rank_digests_sorted_stable clk llm self digests :
  exists ranked,
    rank_digests clk llm self digests = inr ranked /\
    (forall i a b,
       ranked !! i = Some a -> ranked !! S i = Some b ->
       (relevance_score b <=? relevance_score a)%float = true) /\
    (forall s,
       List.filter (fun r => (row_score r =? s)%float) (row_of <$> ranked)
       = List.filter (fun r => (row_score r =? s)%float)
           (final_rows llm self (shortlist clk self digests))) /\
    fst ∘ fst <$> final_rows llm self (shortlist clk self digests)
      = Digest.id ∘ item <$> shortlist clk self digests /\
    (forall i a, ranked !! i = Some a -> rank a = (Z.of_nat i + 1)%Z).
Proof.
  eexists. split; [apply rank_digests_returns|].
  set (rows := final_rows llm self (shortlist clk self digests)).
  repeat split.
  - intros i a b Ha Hb.
    apply ranked_from_lookup in Ha as [_ Ha], Hb as [_ Hb].
    apply (Sorted_adjacent (ge_key row_score) _ _ _ _
             (final_rows_sorted llm self _) Ha Hb).
  - intros s. rewrite ranked_from_rows. apply sort_desc_stable.
  - apply final_rows_ids.
  - intros i a Ha. apply ranked_from_lookup in Ha as [-> _]. lia.
Qed.

(** C1: when the external scoring step raises, whatever the exception,
    [rank_digests] still returns a ranked list of all N shortlisted
    items, and every item carries the fallback score
    clamp(3.0 + min(7.0, h), 0, 10) of its own heuristic score [h].
    The list is fully ranked: its rows are the fallback rows of the
    shortlist, each result scores at least as much as every later one,
    results with equal scores keep the order of the shortlist, and the
    i-th result carries rank i. *)
Theorem rank_digests_absorbs_failure clk llm self digests e :
  _llm_score llm self (shortlist clk self digests) = inl e ->
  exists ranked,
    rank_digests clk llm self digests = inr ranked /\
    length ranked = length (shortlist clk self digests) /\
    rank <$> ranked = Z.of_nat <$> seq 1 (length ranked) /\
    row_of <$> ranked ≡ₚ fallback_row <$> shortlist clk self digests /\
    Forall (fun a => exists d t,
              d ∈ shortlist clk self digests /\
              fst (_heuristic_score clk self (item d) t)
                = (_heur_score d, _heur_why d) /\
              digest_id a = Digest.id (item d) /\
              relevance_score a
                = PyFloat.max 0 (PyFloat.min 10
                    (3 + PyFloat.min 7 (_heur_score d))%float) /\
              reasoning a = "Heuristic ranking (no LLM): " ++ _heur_why d)
           ranked /\
    (forall i j a b,
       i < j -> ranked !! i = Some a -> ranked !! j = Some b ->
       (relevance_score b <=? relevance_score a)%float = true) /\
    (forall s,
       List.filter (fun r => (row_score r =? s)%float) (row_of <$> ranked)
       = List.filter (fun r => (row_score r =? s)%float)
           (fallback_row <$> shortlist clk self digests)) /\
    (forall i a, ranked !! i = Some a -> rank a = (Z.of_nat i + 1)%Z).
Proof.
  intros He. eexists. split; [apply rank_digests_returns|].
  pose proof (final_rows_sorted llm self (shortlist clk self digests)) as Hs.
  unfold final_rows in *. rewrite He in *.
  split; [|split; [|split; [|split; [|split; [|split]]]]].
  - by rewrite ranked_from_length, sort_desc_length, length_fmap.
  - rewrite ranked_from_ranks, ranked_from_length. apply seq_from_1.
  - rewrite ranked_from_rows. apply sort_desc_perm.
  - apply Forall_forall. intros a Ha. apply ranked_from_sorted_elem in Ha.
    apply list_elem_of_fmap in Ha as (d & Hd & Hin). exists d.
    pose proof (shortlist_annotations clk self digests) as Hann.
    rewrite Forall_forall in Hann. destruct (Hann d Hin) as [t Ht].
    exists t. destruct a as [did sc rk why]. unfold row_of, fallback_row in Hd.
    simpl in *. by simplify_eq.
  - intros i j a b Hij Ha Hb.
    apply ranked_from_lookup in Ha as [_ Ha], Hb as [_ Hb].
    apply (Sorted_before row_score _ i j _ _ Hs Hij Ha Hb).
  - intros s. rewrite ranked_from_rows. apply sort_desc_stable.
  - intros i a Ha. apply ranked_from_lookup in Ha as [-> _]. lia.
Qed.

Lemma rank_digests_absorbs_failure_witness :
  exists ranked,
    rank_digests Sample.clk0 Sample.down Sample.agent Sample.pool
      = inr ranked /\
    length ranked = 3.
Proof.
  destruct (rank_digests_absorbs_failure Sample.clk0 Sample.down Sample.agent
              Sample.pool (ServiceError "timeout"))
    as (ranked & Hr & Hlen & _).
  - reflexivity.
  - exists ranked. split; [exact Hr|]. rewrite Hlen.
    apply shortlist_length.
Defined.

(** The sample pool when the service is down: the fallback scores are
    8.2, 5.7 and 0.2 (to the nearest float), in this order. *)
Example rank_digests_service_down :
  rank_digests Sample.clk0 Sample.down Sample.agent Sample.pool
  = inr [mk_RankedArticle "openai:1" 8.2 1
           "Heuristic ranking (no LLM): interest=3, boost=2, recency=0.00";
         mk_RankedArticle "anthropic:3" 5.7 2
           "Heuristic ranking (no LLM): interest=1, boost=0, recency=1.50";
         mk_RankedArticle "youtube:2" 0.20000000000000018 3
           "Heuristic ranking (no LLM): interest=0, boost=0, recency=0.00"].
Proof. vm_compute. reflexivity. Qed.

(** C5: when the external scoring step returns a score map, every
    shortlisted item whose identifier is in the map takes the clamped
    external score with the external-score rationale, every other item
    takes the fallback score with the rationale that the external
    service returned no score for it, and no row comes from the handler
    of a failed step. *)
Theorem partial_scores_merge clk llm self digests llm_scores :
  _llm_score llm self (shortlist clk self digests) = inr llm_scores ->
  exists ranked,
    rank_digests clk llm self digests = inr ranked /\
    row_of <$> ranked ≡ₚ merge_row llm_scores <$> shortlist clk self digests /\
    Forall (fun a => exists d,
              d ∈ shortlist clk self digests /\
              digest_id a = Digest.id (item d) /\
              match llm_scores !! Digest.id (item d) with
              | Some sc =>
                  relevance_score a = PyFloat.max 0 (PyFloat.min 10 sc) /\
                  reasoning a =
                    "LLM relevance score (shortlisted after heuristic pre-rank)"
              | None =>
                  relevance_score a
                    = PyFloat.max 0 (PyFloat.min 10
                        (3 + PyFloat.min 7 (_heur_score d))%float) /\
                  reasoning a =
                    "Fallback heuristic (LLM did not return score): "
                      ++ _heur_why d
              end)
           ranked /\
    Forall (fun a =>
              String.prefix "Heuristic ranking (no LLM)" (reasoning a) = false)
           ranked.
Proof.
  intros Hs. eexists. split; [apply rank_digests_returns|].
  unfold final_rows. rewrite Hs.
  assert (Hrow : forall a,
    a ∈ ranked_from 1
          (sort_desc row_score
             (merge_row llm_scores <$> shortlist clk self digests)) ->
    exists d, d ∈ shortlist clk self digests /\
              row_of a = merge_row llm_scores d).
  { intros a Ha. apply ranked_from_sorted_elem in Ha.
    apply list_elem_of_fmap in Ha as (d & Hd & Hin). eauto. }
  repeat split.
  - rewrite ranked_from_rows. apply sort_desc_perm.
  - apply Forall_forall. intros a Ha. destruct (Hrow a Ha) as (d & Hin & Hd).
    exists d. split; [done|]. rewrite merge_row_cases in Hd.
    destruct a as [did sc rk why]. unfold row_of in Hd. simpl in *.
    destruct (llm_scores !! Digest.id (item d)); by simplify_eq.
  - apply Forall_forall. intros a Ha. destruct (Hrow a Ha) as (d & Hin & Hd).
    rewrite merge_row_cases in Hd.
    destruct a as [did sc rk why]. unfold row_of in Hd. simpl in *.
    destruct (llm_scores !! Digest.id (item d)); by simplify_eq.
Qed.

Lemma partial_scores_merge_witness :
  exists ranked,
    rank_digests Sample.clk0 (Sample.reply Sample.partial_reply)
      Sample.agent Sample.pool = inr ranked /\
    length ranked = 3.
Proof.
  destruct (partial_scores_merge Sample.clk0
              (Sample.reply Sample.partial_reply) Sample.agent Sample.pool
              (<["youtube:2" := 12%float]> (<["zzz" := 1%float]> ∅)))
    as (ranked & Hr & Hperm & _).
  - vm_compute. reflexivity.
  - exists ranked. split; [exact Hr|].
    apply Permutation_length in Hperm. rewrite !length_fmap in Hperm.
    rewrite Hperm. apply shortlist_length.
Defined.

(** The reply scores one shortlisted item (above the range) and an
    unknown identifier: the scored item takes 10 and the first rank, the
    others their fallback scores. *)
Example rank_digests_partial_reply :
  (fun a => (digest_id a, rank a, reasoning a))
    <$> default [] (sum_rect (fun _ => option (list RankedArticle))
                      (fun _ => None) Some
                      (rank_digests Sample.clk0
                         (Sample.reply Sample.partial_reply)
                         Sample.agent Sample.pool))
  = [("youtube:2", 1%Z,
      "LLM relevance score (shortlisted after heuristic pre-rank)");
     ("openai:1", 2%Z,
      "Fallback heuristic (LLM did not return score): interest=3, boost=2, recency=0.00");
     ("anthropic:3", 3%Z,
      "Fallback heuristic (LLM did not return score): interest=1, boost=0, recency=1.50")].
Proof. vm_compute. reflexivity. Qed.

(** ** The tokenizer *)

(** C10: the tokenizer maps "GPT-4 Release Notes!!" to the tokens
    release and notes (as a list, and as the set built from it), maps
    "gpt-4" to nothing, keeps "scalability", and returns nothing on a
    null or an empty input. *)
Theorem tokenize_examples :
  _tokenize (Some "GPT-4 Release Notes!!") = ["release"; "notes"] /\
  (list_to_set (_tokenize (Some "GPT-4 Release Notes!!")) : gset string)
    = {["release"; "notes"]} /\
  _tokenize (Some "gpt-4") = [] /\
  "scalability" ∈ _tokenize (Some "scalability") /\
  _tokenize None = [] /\
  _tokenize (Some "") = [].
Proof.
  repeat split; try reflexivity.
  vm_compute. apply list_elem_of_here.
Qed.

(** ** The heuristic scorer *)




(** C8, as the code has it: the rationale records the interest count,
    the boost count and the recency bonus that enter the score; it is
    the same whatever the down-set of the profile model is. *)
Theorem heuristic_rationale clk self d t :
  let i := size (digest_tokens d ∩ interest_tokens self) in
  let b := size (digest_tokens d ∩ boost_terms self) in
  let dn := size (digest_tokens d ∩ down_terms self) in
  (exists recency,
     fst (_heuristic_score clk self d t)
     = ((PyFloat.of_nat i * 1.2 + PyFloat.of_nat b * 0.8
         - PyFloat.of_nat dn * 0.7 + recency)%float,
        "interest=" ++ PyStr.of_nat i ++ ", boost=" ++ PyStr.of_nat b
          ++ ", recency=" ++ PyFloat.format_2f recency)) /\
  (forall down,
     snd (fst (_heuristic_score clk
                 (mk_CuratorAgent (user_profile self) (interest_tokens self)
                    (boost_terms self) down) d t))
     = snd (fst (_heuristic_score clk self d t))).
Proof.
  split.
  - unfold _heuristic_score, _now_utc.
    destruct (Digest.created_at d) as [[created|]|]; eexists; reflexivity.
  - intros down. unfold _heuristic_score, _now_utc.
    destruct (Digest.created_at d) as [[created|]|]; reflexivity.
Qed.

(** C8 fails as stated: an item with four down-set hits and an item
    with none have the same rationale, in which no 4 occurs. *)
Lemma rationale_omits_down_hits :
  size (digest_tokens Sample.d2 ∩ down_terms Sample.agent) = 4 /\
  size (digest_tokens Sample.d4 ∩ down_terms Sample.agent) = 0 /\
  snd (fst (_heuristic_score Sample.clk0 Sample.agent Sample.d2 0))
    = "interest=0, boost=0, recency=0.00" /\
  snd (fst (_heuristic_score Sample.clk0 Sample.agent Sample.d4 0))
    = "interest=0, boost=0, recency=0.00" /\
  index 0 "4" (snd (fst (_heuristic_score Sample.clk0 Sample.agent
                           Sample.d2 0))) = None.
Proof. repeat split; vm_compute; reflexivity. Qed.

(** ** The request *)

Lemma length_app (a b : string) :
  String.length (a ++ b) = String.length a + String.length b.
Proof. induction a as [|c a IH]; simpl; [done|]. by rewrite IH. Qed.

Lemma app_cons c (a b : string) : String c a ++ b = String c (a ++ b).
Proof. reflexivity. Qed.

Lemma app_nil_l (b : string) : "" ++ b = b.
Proof. reflexivity. Qed.

Ltac sapp := rewrite ?app_cons, ?app_nil_l.

Lemma chars_app a b : chars (a ++ b) = (chars a ++ chars b)%list.
Proof. induction a as [|c a IH]; sapp; simpl; [done|]. by f_equal. Qed.

Lemma string_app_assoc (a b c : string) : (a ++ b) ++ c = a ++ b ++ c.
Proof. induction a as [|x a IH]; sapp; [done|]. by f_equal. Qed.

Lemma string_app_nil_r (a : string) : a ++ "" = a.
Proof. induction a as [|x a IH]; sapp; [done|]. by f_equal. Qed.

(** Occurrence of a text within another. *)
Lemma occurs_in_refl s : occurs_in s s.
Proof. exists "", "". by rewrite string_app_nil_r. Qed.

Lemma occurs_in_app_r s p t : occurs_in s t -> occurs_in s (p ++ t).
Proof.
  intros (pre & post & ->). exists (p ++ pre), post.
  by rewrite string_app_assoc.
Qed.

Lemma occurs_in_app_l s t q : occurs_in s t -> occurs_in s (t ++ q).
Proof.
  intros (pre & post & ->). exists pre, (post ++ q).
  by rewrite !string_app_assoc.
Qed.

Lemma occurs_in_trans s t u : occurs_in s t -> occurs_in t u -> occurs_in s u.
Proof.
  intros Hst (pre & post & ->). by apply occurs_in_app_r, occurs_in_app_l.
Qed.

(** Every part occurs in the joined text. *)
Lemma join_occurs sep parts p :
  p ∈ parts -> occurs_in p (PyStr.join sep parts).
Proof.
  induction parts as [|q ps IH]; [by intros ?%elem_of_nil|].
  intros Hp. destruct ps as [|r ps].
  - apply elem_of_cons in Hp as [->|Hp]; [apply occurs_in_refl|].
    by apply elem_of_nil in Hp.
  - change (PyStr.join sep (q :: r :: ps))
      with (q ++ sep ++ PyStr.join sep (r :: ps)).
    apply elem_of_cons in Hp as [->|Hp].
    + apply occurs_in_app_l, occurs_in_refl.
    + by apply occurs_in_app_r, occurs_in_app_r, IH.
Qed.

Lemma user_prompt_eq self shortlisted :
  user_prompt (build_request self shortlisted)
  = "Score these " ++ PyStr.of_nat (length shortlisted)
      ++ " digests by relevance. Return JSON only." ++ PyStr.nl ++ PyStr.nl
      ++ PyStr.join (PyStr.nl ++ PyStr.nl) (digest_block <$> shortlisted)
      ++ PyStr.nl.
Proof. reflexivity. Qed.

Lemma block_in_user_prompt self shortlisted d :
  d ∈ shortlisted ->
  occurs_in (digest_block d) (user_prompt (build_request self shortlisted)).
Proof.
  intros Hd. rewrite user_prompt_eq.
  do 5 apply occurs_in_app_r. apply occurs_in_app_l, join_occurs.
  by apply list_elem_of_fmap_2.
Qed.

(** The four labelled fields of a block, each with the text that
    follows its label in full. *)
Lemma fields_in_block d :
  occurs_in ("ID: " ++ Digest.id (item d) ++ PyStr.nl) (digest_block d) /\
  occurs_in ("Title: " ++ PyStr.fmt (Digest.title (item d)) ++ PyStr.nl)
    (digest_block d) /\
  occurs_in ("Summary: " ++ PyStr.fmt (Digest.summary (item d)) ++ PyStr.nl)
    (digest_block d) /\
  occurs_in ("Type: " ++ Digest.article_type (item d)) (digest_block d).
Proof.
  unfold digest_block.
  set (i := Digest.id (item d)). set (t := PyStr.fmt (Digest.title (item d))).
  set (m := PyStr.fmt (Digest.summary (item d))).
  set (y := Digest.article_type (item d)).
  split; [|split; [|split]].
  - exists "", ("Title: " ++ t ++ PyStr.nl ++ "Summary: " ++ m ++ PyStr.nl
                ++ "Type: " ++ y).
    by rewrite !string_app_assoc.
  - exists ("ID: " ++ i ++ PyStr.nl),
      ("Summary: " ++ m ++ PyStr.nl ++ "Type: " ++ y).
    by rewrite !string_app_assoc.
  - exists ("ID: " ++ i ++ PyStr.nl ++ "Title: " ++ t ++ PyStr.nl),
      ("Type: " ++ y).
    by rewrite !string_app_assoc.
  - exists ("ID: " ++ i ++ PyStr.nl ++ "Title: " ++ t ++ PyStr.nl
            ++ "Summary: " ++ m ++ PyStr.nl), "".
    by rewrite !string_app_assoc, string_app_nil_r.
Qed.

Lemma filler_length n : String.length (Sample.filler n) = n.
Proof. induction n as [|n IH]; simpl; [done|]. by rewrite IH. Qed.

Lemma digest_block_length d :
  String.length (digest_block d)
  = 29 + String.length (Digest.id (item d))
    + String.length (PyStr.fmt (Digest.title (item d)))
    + String.length (PyStr.fmt (Digest.summary (item d)))
    + String.length (Digest.article_type (item d)).
Proof.
  unfold digest_block, PyStr.nl.
  repeat (rewrite length_app; cbn [String.length]). lia.
Qed.

Lemma join_length_ge sep parts :
  sum_list_with String.length parts <= String.length (PyStr.join sep parts).
Proof.
  induction parts as [|p ps IH]; [done|]. destruct ps as [|q ps].
  - simpl. lia.
  - change (PyStr.join sep (p :: q :: ps))
      with (p ++ sep ++ PyStr.join sep (q :: ps)).
    set (rest := q :: ps) in *. rewrite !length_app.
    cbn [sum_list_with]. lia.
Qed.

Lemma sum_blocks_ge (shortlisted : list scored) :
  sum_list_with
    (fun d => String.length (PyStr.fmt (Digest.summary (item d))))
    shortlisted
  <= sum_list_with String.length (digest_block <$> shortlisted).
Proof.
  induction shortlisted as [|d ds IH]; [done|].
  rewrite fmap_cons. cbn [sum_list_with]. rewrite digest_block_length. lia.
Qed.

Lemma user_prompt_length_ge self shortlisted :
  sum_list_with
    (fun d => String.length (PyStr.fmt (Digest.summary (item d))))
    shortlisted
  <= String.length (user_prompt (build_request self shortlisted)).
Proof.
  etrans; [apply sum_blocks_ge|].
  unfold build_request. cbn [user_prompt]. rewrite !length_app.
  pose proof (join_length_ge (PyStr.nl ++ PyStr.nl)
                (digest_block <$> shortlisted)) as H.
  lia.
Qed.

(** C7, as the code has it: every per-item block carries the item's
    identifier, title, summary and type in full, so the user prompt is
    at least as long as the summaries of the shortlist together; what is
    bounded is the number of blocks, at most 25.  A block is the four
    labelled fields, each whole; the user prompt is its opening line
    followed by the blocks of the shortlist in order, two line breaks
    apart; so the block of every shortlisted item, and with it each of
    its four fields uncut, occurs in the user prompt. *)
Theorem request_carries_full_summaries :
  (forall d,
     String.length (digest_block d)
     = 29 + String.length (Digest.id (item d))
       + String.length (PyStr.fmt (Digest.title (item d)))
       + String.length (PyStr.fmt (Digest.summary (item d)))
       + String.length (Digest.article_type (item d))) /\
  (forall self shortlisted,
     sum_list_with
       (fun d => String.length (PyStr.fmt (Digest.summary (item d))))
       shortlisted
     <= String.length (user_prompt (build_request self shortlisted))) /\
  (forall clk self digests, length (shortlist clk self digests) <= 25) /\
  (forall d,
     digest_block d
     = "ID: " ++ Digest.id (item d) ++ PyStr.nl
         ++ "Title: " ++ PyStr.fmt (Digest.title (item d)) ++ PyStr.nl
         ++ "Summary: " ++ PyStr.fmt (Digest.summary (item d)) ++ PyStr.nl
         ++ "Type: " ++ Digest.article_type (item d)) /\
  (forall self shortlisted,
     user_prompt (build_request self shortlisted)
     = "Score these " ++ PyStr.of_nat (length shortlisted)
         ++ " digests by relevance. Return JSON only." ++ PyStr.nl ++ PyStr.nl
         ++ PyStr.join (PyStr.nl ++ PyStr.nl) (digest_block <$> shortlisted)
         ++ PyStr.nl) /\
  (forall self shortlisted d,
     d ∈ shortlisted ->
     let prompt := user_prompt (build_request self shortlisted) in
     occurs_in (digest_block d) prompt /\
     occurs_in ("ID: " ++ Digest.id (item d) ++ PyStr.nl) prompt /\
     occurs_in ("Title: " ++ PyStr.fmt (Digest.title (item d)) ++ PyStr.nl)
       prompt /\
     occurs_in ("Summary: " ++ PyStr.fmt (Digest.summary (item d)) ++ PyStr.nl)
       prompt /\
     occurs_in ("Type: " ++ Digest.article_type (item d)) prompt).
Proof.
  split; [apply digest_block_length|].
  split; [apply user_prompt_length_ge|].
  split.
  { intros clk self digests. rewrite shortlist_length.
    unfold PRE_RANK_KEEP. lia. }
  split; [reflexivity|]. split; [apply user_prompt_eq|].
  intros self shortlisted d Hd prompt.
  pose proof (block_in_user_prompt self shortlisted d Hd) as Hb.
  destruct (fields_in_block d) as (Hi & Ht & Hm & Hy).
  split; [exact Hb|].
  repeat split; eapply occurs_in_trans; eauto.
Qed.

(** C7 fails as stated: no constant bounds the length of a per-item
    block, and none bounds the request length per shortlisted item. *)
Lemma request_size_unbounded :
  ~ (exists c, forall d, String.length (digest_block d) <= c) /\
  ~ (exists c, forall self shortlisted,
       String.length (user_prompt (build_request self shortlisted))
       <= c * length shortlisted).
Proof.
  split.
  - intros [c H]. specialize (H (Sample.long (S c))).
    rewrite digest_block_length in H. simpl in H.
    rewrite filler_length in H. lia.
  - intros [c H]. specialize (H Sample.agent [Sample.long (S c)]).
    pose proof (user_prompt_length_ge Sample.agent [Sample.long (S c)]) as G.
    change (sum_list_with _ [Sample.long (S c)])
      with (String.length (Sample.filler (S c)) + 0) in G.
    rewrite filler_length in G. cbn [length] in H. lia.
Qed.

(** A summary of 5000 characters reaches the request in full. *)
Example long_summary_in_request :
  5000 <= String.length
            (user_prompt (build_request Sample.agent [Sample.long 5000])).
Proof.
  etrans; [|apply user_prompt_length_ge].
  change (sum_list_with _ [Sample.long 5000])
    with (String.length (Sample.filler 5000) + 0).
  rewrite filler_length. lia.
Qed.

(** ** Parsing the reply *)




(** With that reply the coordinator takes the merge path: every item
    carries the rationale of a missing identifier, none that of a
    failed scoring step. *)
Example rank_digests_absent_articles :
  reasoning
    <$> default [] (sum_rect (fun _ => option (list RankedArticle))
                      (fun _ => None) Some
                      (rank_digests Sample.clk0 (Sample.reply "{}")
                         Sample.agent Sample.pool))
  = ["Fallback heuristic (LLM did not return score): interest=3, boost=2, recency=0.00";
     "Fallback heuristic (LLM did not return score): interest=1, boost=0, recency=1.50";
     "Fallback heuristic (LLM did not return score): interest=0, boost=0, recency=0.00"].
Proof. vm_compute. reflexivity. Qed.

(** Parsing also raises on an [articles] value that cannot be iterated
    and on an entry that is no object. *)
Example malformed_articles_raise :
  parse_scores (Some (PyStr.dq "{'articles': 5}")) = inl TypeError /\
  parse_scores (Some (PyStr.dq "{'articles': [1]}")) = inl AttributeError /\
  parse_scores (Some (PyStr.dq "{'articles': [}")) = inl JSONDecodeError.
Proof. repeat split; vm_compute; reflexivity. Qed.

(** A fenced reply with a language tag parses like the bare object. *)
Example fenced_reply_parses :
  _extract_json (Some (PyStr.dq ("```json" ++ PyStr.nl
                                   ++ "{'articles': []}" ++ PyStr.nl ++ "```")))
  = _extract_json (Some (PyStr.dq "{'articles': []}")).
Proof. vm_compute. reflexivity. Qed.

(** * Further properties of the agent *)

(** ** What the coordinator returns *)

Lemma ranked_ids_rows (rows : list row) :
  digest_id <$> ranked_from 1 (sort_desc row_score rows)
  ≡ₚ fst ∘ fst <$> rows.
Proof.
  rewrite <- (sort_desc_perm row_score rows) at 2.
  rewrite <- (ranked_from_rows 1 (sort_desc row_score rows)) at 2.
  by rewrite <- list_fmap_compose.
Qed.

(** X1: the identifiers [rank_digests] returns are identifiers of the
    pool, each at most as often as the pool has it, whatever the
    external service replies; a pool of at most 25 items is returned
    whole. *)
Theorem ranked_ids_from_pool clk llm self digests :
  exists ranked,
    rank_digests clk llm self digests = inr ranked /\
    digest_id <$> ranked ⊆+ Digest.id <$> digests /\
    (length digests <= 25 ->
     digest_id <$> ranked ≡ₚ Digest.id <$> digests).
Proof.
  eexists. split; [apply rank_digests_returns|].
  assert (Hsub : Digest.id ∘ item <$> shortlist clk self digests
                 ⊆+ Digest.id <$> digests).
  { rewrite list_fmap_compose. apply fmap_submseteq, shortlist_sublist. }
  split.
  - rewrite ranked_ids_rows, final_rows_ids. exact Hsub.
  - intros Hlen. rewrite ranked_ids_rows, final_rows_ids.
    apply submseteq_length_Permutation; [exact Hsub|].
    rewrite !length_fmap, shortlist_length. unfold PRE_RANK_KEEP. lia.
Qed.

(** Rows that all score alike are left in place by the final sort. *)
Lemma sort_desc_ties {A} (key : A -> float) s (l : list A) :
  Forall (fun a => (key a =? s)%float = true) l -> sort_desc key l = l.
Proof.
  intros Hl.
  assert (Hf : forall l', Forall (fun a => (key a =? s)%float = true) l' ->
                 List.filter (fun a => (key a =? s)%float) l' = l').
  { induction 1 as [|a l' Ha _ IH]; [done|]. simpl. by rewrite Ha, IH. }
  rewrite <- (Hf (sort_desc key l)).
  - rewrite sort_desc_stable. by apply Hf.
  - by rewrite (sort_desc_perm key l).
Qed.

Lemma eqb_refl_ordered x : ordered x -> (x =? x)%float = true.
Proof.
  unfold ordered. rewrite FloatAxioms.leb_spec, FloatAxioms.eqb_spec.
  unfold SFleb, SFeqb.
  pose proof (SFcompare_swap (Prim2SF x) (Prim2SF x)) as H.
  destruct (SFcompare (Prim2SF x) (Prim2SF x)) as [[]|]; simpl in H;
    congruence.
Qed.

(** X2: when the external service gives every shortlisted item the
    same score, the final order is the order of the shortlist, that is,
    the pre-rank order. *)
Theorem equal_scores_keep_prerank_order clk llm self digests llm_scores sc :
  _llm_score llm self (shortlist clk self digests) = inr llm_scores ->
  (forall d, d ∈ shortlist clk self digests ->
             llm_scores !! Digest.id (item d) = Some sc) ->
  exists ranked,
    rank_digests clk llm self digests = inr ranked /\
    digest_id <$> ranked = Digest.id ∘ item <$> shortlist clk self digests /\
    Forall (fun a => relevance_score a = clamp sc) ranked.
Proof.
  intros Hs Hall. eexists. split; [apply rank_digests_returns|].
  unfold final_rows. rewrite Hs.
  set (sl := shortlist clk self digests) in *.
  assert (Hrows : merge_row llm_scores <$> sl
                  = (fun d => (Digest.id (item d), clamp sc,
                       "LLM relevance score (shortlisted after heuristic pre-rank)"))
                      <$> sl).
  { apply list_fmap_ext. intros i d Hd. rewrite merge_row_cases.
    by rewrite (Hall d (list_elem_of_lookup_2 _ _ _ Hd)). }
  rewrite Hrows, (sort_desc_ties row_score (clamp sc)).
  - split.
    + match goal with |- digest_id <$> ?l = _ =>
        trans (fst ∘ fst <$> (row_of <$> l)) end.
      { rewrite <- list_fmap_compose. by apply list_fmap_ext. }
      by rewrite ranked_from_rows, <- list_fmap_compose.
    + apply Forall_forall. intros a Ha.
      apply (list_elem_of_fmap_2 row_of) in Ha.
      rewrite ranked_from_rows in Ha.
      apply list_elem_of_fmap in Ha as (d & Hd & _).
      destruct a. unfold row_of in Hd. simpl in *. by simplify_eq.
  - apply Forall_fmap, Forall_true. intros d. unfold row_score. simpl.
    apply eqb_refl_ordered, clamp_ordered.
Qed.

Lemma equal_scores_keep_prerank_order_witness :
  exists ranked,
    rank_digests Sample.clk0 (Sample.reply Cases.flat_reply) Sample.agent
      Sample.pool = inr ranked /\
    digest_id <$> ranked
    = Digest.id ∘ item <$> shortlist Sample.clk0 Sample.agent Sample.pool.
Proof.
  destruct (equal_scores_keep_prerank_order Sample.clk0
              (Sample.reply Cases.flat_reply) Sample.agent Sample.pool
              Cases.flat_scores 5%float) as (ranked & Hr & Hid & _).
  - vm_compute. reflexivity.
  - intros d Hd. vm_compute in Hd.
    repeat (apply elem_of_cons in Hd as [->|Hd]; [vm_compute; reflexivity|]).
    inversion Hd.
  - exists ranked. by split.
Defined.

(** ** The clock *)

Lemma score_all_no_timestamp clk1 clk2 self digests t1 t2 :
  Forall (fun d => Digest.created_at d = None) digests ->
  fst (score_all clk1 self digests t1) = fst (score_all clk2 self digests t2).
Proof.
  intros Hd. revert t1 t2.
  induction Hd as [|d ds Hn _ IH]; intros t1 t2; [done|]. simpl.
  assert (Hs : _heuristic_score clk1 self d t1
               = (fst (_heuristic_score clk2 self d t2), t1)).
  { unfold _heuristic_score. by rewrite Hn. }
  rewrite Hs.
  destruct (_heuristic_score clk2 self d t2) as [[s why] t2'].
  specialize (IH t1 t2').
  destruct (score_all clk1 self ds t1) as [l1 u1],
    (score_all clk2 self ds t2') as [l2 u2].
  simpl in *. by rewrite IH.
Qed.

(** X3: the ranking of a pool in which no item has a creation
    timestamp does not depend on the clock. *)
Theorem ranking_without_timestamps_ignores_clock clk1 clk2 llm self digests :
  Forall (fun d => Digest.created_at d = None) digests ->
  rank_digests clk1 llm self digests = rank_digests clk2 llm self digests.
Proof.
  intros Hd. rewrite !rank_digests_returns.
  assert (shortlist clk1 self digests = shortlist clk2 self digests) as ->;
    [|done].
  unfold shortlist, _pre_rank.
  pose proof (score_all_no_timestamp clk1 clk2 self digests 0 0 Hd) as H.
  destruct (score_all clk1 self digests 0) as [l1 u1],
    (score_all clk2 self digests 0) as [l2 u2].
  cbn [fst] in *. by rewrite H.
Qed.

Lemma ranking_without_timestamps_ignores_clock_witness :
  rank_digests Sample.clk0 Sample.down Sample.agent [Sample.d1; Sample.d2]
  = rank_digests Sample.clk2d Sample.down Sample.agent [Sample.d1; Sample.d2].
Proof.
  apply ranking_without_timestamps_ignores_clock.
  repeat constructor.
Defined.

(** X4: the pre-ranker reads the clock once for every item whose
    [created_at] is a [datetime], whether or not the conversion of the
    timestamp succeeds, and never for the others; so does the heuristic
    scorer on one item. *)
Theorem score_all_clock_reads clk self digests t :
  snd (score_all clk self digests t)
  = t + length (omap Digest.created_at digests) /\
  (forall d u,
     snd (_heuristic_score clk self d u)
     = match Digest.created_at d with Some _ => S u | None => u end).
Proof.
  assert (Hs : forall d u,
            snd (_heuristic_score clk self d u)
            = match Digest.created_at d with Some _ => S u | None => u end).
  { intros d u. unfold _heuristic_score, _now_utc.
    by destruct (Digest.created_at d) as [[created|]|]. }
  split; [|exact Hs].
  revert t. induction digests as [|d ds IH]; intros t; [simpl; lia|].
  specialize (Hs d t). cbn [score_all].
  destruct (_heuristic_score clk self d t) as [[s why] t1].
  specialize (IH t1). destruct (score_all clk self ds t1) as [l t2].
  cbn [snd] in *. subst t1 t2. cbn [omap list_omap].
  destruct (Digest.created_at d); cbn [length]; lia.
Qed.

(** A timestamp that cannot be converted costs one reading of the
    clock and leaves the recency bonus at 0.0, whatever the clock
    reads. *)
Example unconverted_timestamp_reads_clock clk t :
  _heuristic_score clk Sample.agent Cases.d6 t
  = ((1.2%float, "interest=1, boost=0, recency=0.00"), S t).
Proof. vm_compute. reflexivity. Qed.

(** ** The request *)

(** X5: the request is built from the items of the shortlist and the
    reader profile only: the heuristic scores and rationales of the
    pre-ranker, and the vocabularies derived from the profile, never
    reach the external service. *)
Theorem request_ignores_annotations self1 self2 (sl1 sl2 : list scored) :
  user_profile self1 = user_profile self2 ->
  item <$> sl1 = item <$> sl2 ->
  build_request self1 sl1 = build_request self2 sl2.
Proof.
  intros Hp Hi. unfold build_request. rewrite Hp.
  assert (digest_block <$> sl1 = digest_block <$> sl2) as ->.
  { change digest_block
      with ((fun d : Digest.t =>
               "ID: " ++ Digest.id d ++ PyStr.nl
                 ++ "Title: " ++ PyStr.fmt (Digest.title d) ++ PyStr.nl
                 ++ "Summary: " ++ PyStr.fmt (Digest.summary d) ++ PyStr.nl
                 ++ "Type: " ++ Digest.article_type d) ∘ item).
    by rewrite !list_fmap_compose, Hi. }
  assert (length sl1 = length sl2) as ->; [|done].
  by rewrite <- (length_fmap item sl1), Hi, length_fmap.
Qed.

Lemma request_ignores_annotations_witness :
  build_request Sample.agent [mk_scored Sample.d1 0 ""]
  = build_request (CuratorAgent_init (user_profile Sample.agent))
      [mk_scored Sample.d1 9 "interest=7"].
Proof. by apply request_ignores_annotations. Defined.

(** ** Reading the reply *)

(** X6: a reply whose entries have the requested shape, with non-empty
    identifiers, is read into the score map entry by entry; when an
    identifier occurs twice the later score replaces the earlier one. *)
Theorem collect_scores_entries (kfs : list (string * float)) scores :
  Forall (fun kf => kf.1 <> "") kfs ->
  collect_scores ((fun kf => entry kf.1 kf.2) <$> kfs) scores
  = inr (list_to_map (rev kfs) ∪ scores).
Proof.
  intros Hk. revert scores.
  induction Hk as [|[k f] kfs Hne _ IH]; intros scores.
  - simpl. by rewrite (left_id_L ∅ (∪)).
  - rewrite fmap_cons. cbn [fst snd]. unfold entry at 1.
    cbn [collect_scores]. 
    change (Json.get "digest_id" _) with (Some (JStr k)).
    change (Json.get "relevance_score" _) with (Some (JFloat f)).
    cbn [truthy as_number].
    apply String.eqb_neq in Hne. simpl in Hne. rewrite Hne. cbn [negb].
    rewrite IH. f_equal. simpl rev. rewrite list_to_map_app.
    rewrite <- (assoc_L (∪)). f_equal.
    simpl. by rewrite insert_union_singleton_l, insert_empty.
Qed.

Lemma collect_scores_entries_witness :
  collect_scores [entry "a" 1; entry "b" 2; entry "a" 3] ∅
  = inr (<["b" := 2%float]> (<["a" := 3%float]> ∅)).
Proof.
  rewrite (collect_scores_entries
             [("a", 1%float); ("b", 2%float); ("a", 3%float)] ∅).
  - vm_compute. reflexivity.
  - repeat constructor; discriminate.
Defined.

(** X7: one entry of the reply that is not an object makes the whole
    parse raise, whatever the other entries are. *)
Theorem nonobject_entry_fails_parse items scores x :
  x ∈ items -> (forall pairs, x <> JDict pairs) ->
  exists e, collect_scores items scores = inl e.
Proof.
  intros Hx Hn. revert scores.
  induction Hx as [x l|x y l Hx IH]; intros scores.
  - destruct x; try (by eexists). by destruct (Hn pairs).
  - specialize (IH Hn). destruct y; try (by eexists). cbn [collect_scores].
    destruct (truthy (Json.get "digest_id" pairs)),
      (as_number (Json.get "relevance_score" pairs)) as [[f|]|]; eauto.
    destruct (Json.get "digest_id" pairs) as [[]|]; eauto.
Qed.

Lemma nonobject_entry_fails_parse_witness :
  exists e, collect_scores [entry "a" 1; JInt 5; entry "b" 2] ∅ = inl e.
Proof.
  apply (nonobject_entry_fails_parse _ _ (JInt 5)).
  - apply elem_of_cons. right. apply elem_of_cons. by left.
  - discriminate.
Defined.

(** ** Clamping *)

Section Clamp.

Local Open Scope float_scope.

Ltac spec_cmp :=
  rewrite ?FloatAxioms.ltb_spec, ?FloatAxioms.leb_spec, ?FloatAxioms.eqb_spec;
  unfold SFltb, SFleb, SFeqb.

Ltac eval_spec c :=
  let v := eval vm_compute in (Prim2SF c) in change (Prim2SF c) with v.

Lemma leb_not_ltb a b : (a <=? b) = true -> (b <? a) = false.
Proof.
  spec_cmp. rewrite (SFcompare_swap (Prim2SF a) (Prim2SF b)).
  destruct (SFcompare _ _) as [[]|]; simpl; congruence.
Qed.

Lemma SFcompare_Eq_finite x s m e :
  SFcompare x (S754_finite s m e) = Some Eq -> x = S754_finite s m e.
Proof.
  destruct x as [[]|[]| |[] m1 e1], s; simpl; try discriminate.
  all: destruct (Z.compare_spec e1 e); try discriminate; subst.
  all: change (Pos.compare_cont Eq) with Pos.compare.
  all: destruct (Pos.compare_spec m1 m); try discriminate; subst; done.
Qed.

(** X8: a score above 0 and at most 10 passes the clamp unchanged, bit
    for bit. *)
Theorem clamp_verbatim x :
  (0 <? x) = true -> (x <=? 10) = true -> clamp x = x.
Proof.
  intros H0 H10. unfold clamp, PyFloat.max, PyFloat.min.
  destruct (x <? 10) eqn:Hlt; [by rewrite H0|].
  change (0 <? 10) with true. cbv iota.
  apply Prim2SF_inj. symmetry. revert H10 Hlt. spec_cmp. eval_spec 10.
  intros H10 Hlt. apply SFcompare_Eq_finite.
  destruct (SFcompare _ _) as [[]|]; congruence.
Qed.

Lemma clamp_verbatim_witness : clamp 7.5 = 7.5.
Proof. apply clamp_verbatim; reflexivity. Defined.

(** X9: the clamp saturates: a score that is not below 10, NaN
    included, becomes 10, and a score at or below zero becomes 0. *)
Theorem clamp_saturates x :
  ((x <? 10) = false -> clamp x = 10) /\
  ((x <=? 0) = true -> clamp x = 0).
Proof.
  unfold clamp, PyFloat.max, PyFloat.min. split.
  - intros ->. reflexivity.
  - intros H0.
    assert ((x <? 10) = true) as ->; [|by rewrite (leb_not_ltb _ _ H0)].
    revert H0. spec_cmp. eval_spec 0. eval_spec 10.
    destruct (Prim2SF x) as [[]|[]| |[] m e]; cbn [SFcompare]; congruence.
Qed.

Lemma clamp_saturates_witness :
  clamp nan = 10 /\ clamp 12 = 10 /\ clamp (-3) = 0 /\ clamp (-0) = 0.
Proof.
  exact (conj (proj1 (clamp_saturates nan) eq_refl)
           (conj (proj1 (clamp_saturates 12) eq_refl)
              (conj (proj2 (clamp_saturates (-3)) eq_refl)
                 (proj2 (clamp_saturates (-0)) eq_refl)))).
Defined.

(** X10: a heuristic score that is not below 7, NaN included, gives the
    fallback score 10. *)
Theorem fallback_saturates h :
  (h <? 7) = false -> fallback_score h = 10.
Proof.
  intros Hh. unfold fallback_score, PyFloat.min at 1. by rewrite Hh.
Qed.

Lemma fallback_saturates_witness : fallback_score 8.4 = 10.
Proof. by apply fallback_saturates. Defined.

End Clamp.

(** ** The profile model *)

(** X11: whatever the preferences of the profile are, no term is both
    a boost term and a down term. *)
Theorem boost_down_disjoint user_profile :
  boost_terms (CuratorAgent_init user_profile)
  ∩ down_terms (CuratorAgent_init user_profile) = ∅.
Proof.
  unfold CuratorAgent_init. cbn [boost_terms down_terms].
  destruct (enabled _ "prefer_production_realism"),
    (enabled _ "prefer_implementation_details"),
    (enabled _ "prefer_system_design"),
    (enabled _ "avoid_marketing_hype"); vm_compute; reflexivity.
Qed.

(** ** The recency bonus *)

Section Recency.

Local Open Scope float_scope.

Lemma round_aux_nonpos m e l :
  nonpos_class (binary_round_aux prec emax true m e l) = true.
Proof.
  unfold binary_round_aux.
  destruct (shr_fexp prec emax m e l) as [mrs e'].
  destruct (shr_fexp prec emax _ e' loc_Exact) as [mrs2 e2].
  destruct (shr_m mrs2); [done| |done]. by destruct (Z.leb _ _).
Qed.

Lemma round_aux_nonneg m e l :
  nonneg_class (binary_round_aux prec emax false m e l) = true.
Proof.
  unfold binary_round_aux.
  destruct (shr_fexp prec emax m e l) as [mrs e'].
  destruct (shr_fexp prec emax _ e' loc_Exact) as [mrs2 e2].
  destruct (shr_m mrs2); [done| |done]. by destruct (Z.leb _ _).
Qed.

Lemma binary_round_nonneg m e :
  nonneg_class (binary_round prec emax false m e) = true.
Proof.
  unfold binary_round. destruct (shl_align _ _ _) as [mz ez].
  apply round_aux_nonneg.
Qed.

Lemma of_uint63_nonneg n : nonneg_class (Prim2SF (of_uint63 n)) = true.
Proof.
  rewrite of_uint63_spec. pose proof (Uint63.to_Z_bounded n) as Hn.
  unfold binary_normalize. destruct (Uint63Axioms.to_Z n); [done| |lia].
  apply binary_round_nonneg.
Qed.

Lemma SFldexp_nonneg x k :
  nonneg_class x = true -> nonneg_class (SFldexp prec emax x k) = true.
Proof.
  destruct x as [[]|[]| |[] m e]; try done. intros _. cbn [SFldexp].
  apply binary_round_nonneg.
Qed.

Lemma SFopp_nonneg x :
  nonneg_class x = true -> nonpos_class (SFopp x) = true.
Proof. by destruct x as [[]|[]| |[] m e]. Qed.

Lemma SF2Prim_nonpos x :
  nonpos_class x = true -> nonpos_class (Prim2SF (SF2Prim x)) = true.
Proof.
  destruct x as [[]|[]| |[] m e]; try done; intros _;
    try (vm_compute; reflexivity).
  cbn [SF2Prim]. rewrite opp_spec. apply SFopp_nonneg.
  unfold Z.ldexp. rewrite ldshiftexp_spec.
  apply SFldexp_nonneg, of_uint63_nonneg.
Qed.

Lemma SFdiv_nonpos x my ey :
  nonpos_class x = true ->
  nonpos_class (SFdiv prec emax x (S754_finite false my ey)) = true.
Proof.
  destruct x as [[]|[]| |[] m e]; try done. intros _. cbn [SFdiv xorb].
  destruct (SFdiv_core_binary _ _ _ _ _ _) as [[mz ez] lz].
  apply round_aux_nonpos.
Qed.

Lemma nonpos_not_above x y :
  Prim2SF x = S754_zero false -> nonpos_class (Prim2SF y) = true ->
  (x <? y) = false.
Proof.
  intros Hx Hy. rewrite FloatAxioms.ltb_spec, Hx. unfold SFltb.
  by destruct (Prim2SF y) as [[]|[]| |[] m e].
Qed.

Lemma truediv_nonpos (a : Z) b :
  (a <= 0)%Z -> nonpos_class (Prim2SF (PyFloat.truediv a b)) = true.
Proof.
  intros Ha. unfold PyFloat.truediv. destruct a as [|p|p]; [done|lia|].
  unfold PyFloat.round_quotient.
  destruct (SFdiv_core_binary _ _ _ _ _ _) as [[q e] l].
  apply SF2Prim_nonpos, round_aux_nonpos.
Qed.

(** X12: the recency bonus is never negative and never NaN, whatever
    the clock and the timestamp are. *)
Theorem recency_boost_nonneg now created :
  (0 <=? recency_boost now created) = true.
Proof.
  unfold recency_boost. set (y := (1.5 - _)%float). clearbody y.
  unfold PyFloat.max. destruct (0 <? y) eqn:Hy; [by apply ltb_leb|done].
Qed.

(** X13: an item whose creation timestamp is not in the past of the
    clock reading (a fresh item, or a clock behind the timestamp) takes
    the full bonus 1.5. *)
Theorem recency_boost_full now created :
  (now <= created)%Z -> recency_boost now created = 1.5.
Proof.
  intros Hle. unfold recency_boost.
  set (ts := PyFloat.truediv (now - created) 1000000).
  assert (Hage : PyFloat.max 0 (ts / 3600) = 0).
  { unfold PyFloat.max. rewrite nonpos_not_above; [done|done|].
    rewrite div_spec.
    let v := eval vm_compute in (Prim2SF 3600) in
    change (Prim2SF 3600) with v.
    apply SFdiv_nonpos, truediv_nonpos. lia. }
  rewrite Hage. reflexivity.
Qed.

Lemma recency_boost_full_witness :
  recency_boost 1700000000000000 1700000003000000 = 1.5.
Proof. apply recency_boost_full. lia. Defined.

End Recency.

(** ** What the pre-ranker keeps *)

Section TopKeep.

Local Open Scope float_scope.

(** X14: when no heuristic score is NaN, the pre-ranker keeps the
    [keep] best items: it keeps [keep] items, or the whole pool when
    the pool is smaller; the kept list is in descending order of
    heuristic score; every kept item scores at least as much as every
    item that was left out; kept and left-out items together are the
    scored pool. *)
Theorem pre_rank_keeps_top clk self digests keep t :
  Forall (fun d => ordered (_heur_score d))
         (fst (score_all clk self digests t)) ->
  exists dropped,
    fst (score_all clk self digests t)
      ≡ₚ fst (_pre_rank clk self digests keep t) ++ dropped /\
    StronglySorted (ge_key _heur_score)
      (fst (_pre_rank clk self digests keep t)) /\
    (forall d d',
       d ∈ fst (_pre_rank clk self digests keep t) -> d' ∈ dropped ->
       (_heur_score d' <=? _heur_score d) = true) /\
    length (fst (_pre_rank clk self digests keep t))
      = Nat.min keep (length digests) /\
    length dropped = (length digests - keep)%nat.
Proof.
  unfold _pre_rank.
  pose proof (score_all_items clk self digests t) as Hi.
  destruct (score_all clk self digests t) as [l t'].
  cbn [fst] in *. intros Hord.
  exists (drop keep (sort_desc _heur_score l)).
  assert (Hs : StronglySorted (ge_key _heur_score)
                 (take keep (sort_desc _heur_score l)
                    ++ drop keep (sort_desc _heur_score l))).
  { rewrite take_drop.
    apply (@Sorted_StronglySorted _ _ (ge_key_trans _heur_score)).
    by apply sort_desc_sorted. }
  assert (Hlen : length (sort_desc _heur_score l) = length digests).
  { by rewrite sort_desc_length, <- Hi, length_fmap. }
  split; [by rewrite take_drop, (sort_desc_perm _heur_score l)|].
  split; [by eapply StronglySorted_app_1_l|].
  split.
  { intros d d' Hd Hd'.
    by apply (StronglySorted_app_1_elem_of _ _ _ _ _ Hs). }
  split; [by rewrite length_take, Hlen|by rewrite length_drop, Hlen].
Qed.

Lemma pre_rank_keeps_top_witness :
  exists dropped,
    fst (score_all Sample.clk0 Sample.agent Sample.pool 0%nat)
      ≡ₚ fst (_pre_rank Sample.clk0 Sample.agent Sample.pool 2%nat 0%nat)
           ++ dropped /\
    length (fst (_pre_rank Sample.clk0 Sample.agent Sample.pool 2%nat 0%nat))
      = 2%nat /\
    length dropped = 1%nat.
Proof.
  destruct (pre_rank_keeps_top Sample.clk0 Sample.agent Sample.pool 2%nat 0%nat)
    as (dropped & Hp & _ & _ & Hk & Hd).
  - vm_compute. repeat constructor.
  - exists dropped. split; [exact Hp|]. split; [exact Hk|exact Hd].
Defined.

End TopKeep.

(** ** The tokenizer, in general *)

Lemma string_length_list s :
  String.length s = length (list_ascii_of_string s).
Proof. induction s as [|c s IH]; simpl; [done|]. by rewrite IH. Qed.

Lemma emit_run_app run k : emit_run run k = (emit_run run [] ++ k)%list.
Proof. unfold emit_run. by destruct (4 <=? length run)%nat. Qed.

Lemma emit_run_wf run tok :
  Forall (fun c => token_char c = true) run ->
  tok ∈ emit_run run [] ->
  4 <= String.length tok /\
  Forall (fun c => token_char c = true) (list_ascii_of_string tok).
Proof.
  intros Hrun. unfold emit_run.
  destruct (4 <=? length run)%nat eqn:Hlen; [|by intros ?%elem_of_nil].
  intros ->%list_elem_of_singleton.
  rewrite string_length_list, list_ascii_of_string_of_list_ascii.
  apply Nat.leb_le in Hlen. rewrite length_rev. split; [done|].
  by apply Forall_rev.
Qed.

Lemma findall_runs_wf run s tok :
  Forall (fun c => token_char c = true) run ->
  tok ∈ findall_runs run s ->
  4 <= String.length tok /\
  Forall (fun c => token_char c = true) (list_ascii_of_string tok).
Proof.
  revert run. induction s as [|c s IH]; intros run Hrun; simpl.
  - by apply emit_run_wf.
  - destruct (token_char c) eqn:Hc.
    + apply IH. by constructor.
    + rewrite emit_run_app. intros [H|H]%elem_of_app.
      * by apply (emit_run_wf run).
      * by apply (IH []).
Qed.

(** X15: every token the tokenizer returns, on any text, has four
    characters or more, all of them lower-case letters or digits. *)
Theorem tokenize_wellformed text tok :
  tok ∈ _tokenize text ->
  4 <= String.length tok /\
  Forall (fun c => token_char c = true) (list_ascii_of_string tok).
Proof. apply findall_runs_wf. constructor. Qed.

Lemma tokenize_wellformed_witness :
  4 <= String.length "release" /\
  Forall (fun c => token_char c = true) (list_ascii_of_string "release").
Proof.
  apply (tokenize_wellformed (Some "GPT-4 Release Notes!!")).
  vm_compute. apply list_elem_of_here.
Defined.

Lemma lower_app a b : PyStr.lower (a ++ b) = PyStr.lower a ++ PyStr.lower b.
Proof. induction a as [|c a IH]; simpl; [done|]. by rewrite IH. Qed.

Lemma findall_runs_sep run a c b :
  token_char c = false ->
  findall_runs run (a ++ String c b)
  = (findall_runs run a ++ findall_runs [] b)%list.
Proof.
  intros Hc. revert run. induction a as [|x a IH]; intros run; simpl.
  - rewrite Hc. apply emit_run_app.
  - destruct (token_char x); [apply IH|].
    rewrite (emit_run_app run (findall_runs [] a)), <- (assoc_L (@app string)).
    rewrite <- IH. apply emit_run_app.
Qed.

(** Tokens never run across a space. *)
Lemma tokenize_space a b :
  _tokenize (Some (a ++ " " ++ b))
  = (_tokenize (Some a) ++ _tokenize (Some b))%list.
Proof.
  unfold _tokenize. simpl default. rewrite lower_app.
  change (PyStr.lower (" " ++ b)) with (String " " (PyStr.lower b)).
  by apply findall_runs_sep.
Qed.

(** X16: the token set of an item is the union of the token sets of
    its title and of its summary (a missing one counts as empty): the
    space that joins them keeps their tokens apart. *)
Theorem digest_tokens_union d :
  digest_tokens d
  = list_to_set (_tokenize (Digest.title d))
    ∪ list_to_set (_tokenize (Digest.summary d)).
Proof.
  unfold digest_tokens. rewrite tokenize_space, list_to_set_app_L.
  by destruct (Digest.title d), (Digest.summary d).
Qed.

Lemma tokenize_join (l : list string) :
  _tokenize (Some (PyStr.join " " l)) = l ≫= (fun i => _tokenize (Some i)).
Proof.
  induction l as [|i l IH]; [done|]. destruct l as [|j l].
  - simpl. by rewrite (right_id_L [] (@app string)).
  - change (PyStr.join " " (i :: j :: l))
      with (i ++ " " ++ PyStr.join " " (j :: l)).
    by rewrite tokenize_space, IH.
Qed.

(** X17: the interest vocabulary of the agent is exactly the set of
    tokens of the single interest phrases: joining the phrases neither
    adds nor loses a token. *)
Theorem interest_tokens_of_phrases user_profile tok :
  tok ∈ interest_tokens (CuratorAgent_init user_profile)
  <-> exists phrase, phrase ∈ Profile.interests user_profile
                     /\ tok ∈ _tokenize (Some phrase).
Proof.
  unfold CuratorAgent_init. cbn [interest_tokens].
  rewrite elem_of_list_to_set, tokenize_join, list_elem_of_bind.
  split; intros (phrase & H1 & H2); by exists phrase.
Qed.

(** ** The JSON span *)

Lemma rev_app_spec s acc :
  String.rev_app s acc = String.rev_app s "" ++ acc.
Proof.
  revert acc. induction s as [|c s IH]; intros acc; simpl; [done|].
  rewrite (IH (String c acc)), (IH (String c "")), string_app_assoc.
  by sapp.
Qed.

Lemma rev_cons c s : String.rev (String c s) = String.rev s ++ String c "".
Proof. unfold String.rev. simpl. apply rev_app_spec. Qed.

Lemma rev_app_distr a b : String.rev (a ++ b) = String.rev b ++ String.rev a.
Proof.
  induction a as [|c a IH]; sapp.
  - by rewrite string_app_nil_r.
  - by rewrite !rev_cons, IH, string_app_assoc.
Qed.

Lemma rev_involutive s : String.rev (String.rev s) = s.
Proof.
  induction s as [|c s IH]; [done|].
  rewrite rev_cons, rev_app_distr, IH. by sapp.
Qed.

Lemma chars_rev s : chars (String.rev s) = reverse (chars s).
Proof.
  induction s as [|c s IH]; [done|].
  rewrite rev_cons, chars_app, IH. simpl. by rewrite reverse_cons.
Qed.

Lemma lstrip_app_nonspace p c r :
  PyStr.isspace c = false ->
  PyStr.lstrip (p ++ String c r) = PyStr.lstrip p ++ String c r.
Proof.
  intros Hc. induction p as [|x p IH]; sapp; simpl; [by rewrite Hc|].
  by destruct (PyStr.isspace x).
Qed.

Lemma rstrip_app_nonspace a c q :
  PyStr.isspace c = false ->
  PyStr.rstrip (a ++ String c q) = a ++ String c (PyStr.rstrip q).
Proof.
  intros Hc. unfold PyStr.rstrip.
  rewrite rev_app_distr, rev_cons, string_app_assoc. sapp.
  rewrite lstrip_app_nonspace by done.
  rewrite rev_app_distr, rev_cons, rev_involutive, string_app_assoc.
  by sapp.
Qed.

Lemma lstrip_suffix s : chars (PyStr.lstrip s) `suffix_of` chars s.
Proof.
  induction s as [|c s IH]; simpl; [done|].
  destruct (PyStr.isspace c); [by apply suffix_cons_r|done].
Qed.

Lemma lstrip_notin c s : c ∉ chars s -> c ∉ chars (PyStr.lstrip s).
Proof.
  intros Hc Hin. apply Hc.
  destruct (lstrip_suffix s) as [k ->]. apply elem_of_app. by right.
Qed.

Lemma rstrip_notin c s : c ∉ chars s -> c ∉ chars (PyStr.rstrip s).
Proof.
  intros Hc. unfold PyStr.rstrip. rewrite chars_rev, elem_of_reverse.
  apply lstrip_notin. by rewrite chars_rev, elem_of_reverse.
Qed.

Lemma find_from_app c i p r :
  c ∉ chars p ->
  PyStr.find_from c i (p ++ String c r) = (i + Z.of_nat (String.length p))%Z.
Proof.
  revert i. induction p as [|x p IH]; intros i Hc; sapp; simpl.
  - rewrite Ascii.eqb_refl. lia.
  - simpl in Hc. apply not_elem_of_cons in Hc as [Hx Hc].
    destruct (Ascii.eqb_spec x c); [congruence|]. rewrite IH by done. lia.
Qed.

Lemma rfind_from_notin c i last s :
  c ∉ chars s -> PyStr.rfind_from c i last s = last.
Proof.
  revert i last. induction s as [|x s IH]; intros i last Hc; simpl; [done|].
  simpl in Hc. apply not_elem_of_cons in Hc as [Hx Hc].
  destruct (Ascii.eqb_spec x c); [congruence|]. by apply IH.
Qed.

Lemma rfind_from_app c i last a q :
  c ∉ chars q ->
  PyStr.rfind_from c i last (a ++ String c q)
  = (i + Z.of_nat (String.length a))%Z.
Proof.
  intros Hc. revert i last.
  induction a as [|x a IH]; intros i last; sapp; simpl.
  - rewrite Ascii.eqb_refl, rfind_from_notin by done. lia.
  - rewrite IH. lia.
Qed.

Lemma substring_app_mid p s q :
  substring (String.length p) (String.length s) (p ++ s ++ q) = s.
Proof.
  induction p as [|x p IH]; sapp; simpl; [|done].
  induction s as [|y s IHs]; sapp; simpl; [by destruct q|]. by f_equal.
Qed.

Lemma startswith_fence_no p c r :
  ~ has_char "`" p -> c <> "`"%char ->
  PyStr.startswith (p ++ String c r) "```" = false.
Proof.
  unfold has_char. intros Hp Hc. unfold PyStr.startswith.
  destruct p as [|x p]; sapp; cbn [String.prefix].
  - destruct (ascii_dec "`" c); [congruence|done].
  - simpl in Hp. apply not_elem_of_cons in Hp as [Hx _].
    destruct (ascii_dec "`" x); [congruence|done].
Qed.

(** X19: a JSON object embedded in prose is recovered exactly: when the
    text before it has no opening brace and no backtick and the text
    after it has no closing brace, [_extract_json] returns the object,
    from its opening to its closing brace, whatever lies between them. *)
Theorem extract_json_embedded p mid q :
  ~ has_char "{" p -> ~ has_char "`" p -> ~ has_char "}" q ->
  _extract_json (Some (p ++ "{" ++ mid ++ "}" ++ q))
  = inr ("{" ++ mid ++ "}").
Proof.
  unfold has_char. intros Hp1 Hp2 Hq. unfold _extract_json. simpl default.
  unfold PyStr.strip. sapp.
  rewrite lstrip_app_nonspace by done.
  set (P := PyStr.lstrip p).
  assert (HP1 : ~ has_char "{" P) by (by apply lstrip_notin).
  assert (HP2 : ~ has_char "`" P) by (by apply lstrip_notin).
  unfold has_char in HP1, HP2.
  replace (P ++ String "{" (mid ++ String "}" q))
    with ((P ++ String "{" mid) ++ String "}" q)
    by (rewrite string_app_assoc; by sapp).
  rewrite rstrip_app_nonspace by done.
  set (Q := PyStr.rstrip q).
  assert (HQ : ~ has_char "}" Q) by (by apply rstrip_notin).
  unfold has_char in HQ.
  set (text := (P ++ String "{" mid) ++ String "}" Q).
  assert (Htext : text = P ++ String "{" (mid ++ String "}" Q)).
  { unfold text. rewrite string_app_assoc. by sapp. }
  assert (Hfence : remove_fences text = text).
  { unfold remove_fences. rewrite Htext, startswith_fence_no; done. }
  rewrite Hfence.
  set (n := String.length P). set (m := String.length mid).
  assert (Hfind : PyStr.find text "{" = Z.of_nat n).
  { unfold PyStr.find. rewrite Htext, find_from_app by done. fold n. lia. }
  assert (Hrfind : PyStr.rfind text "}" = Z.of_nat (n + S m)).
  { unfold PyStr.rfind, text. rewrite rfind_from_app by done.
    rewrite length_app. simpl String.length. fold n m. lia. }
  rewrite Hfind, Hrfind.
  destruct (Z.eqb_spec (Z.of_nat n) (-1)); [lia|].
  destruct (Z.eqb_spec (Z.of_nat (n + S m)) (-1)); [lia|].
  destruct (Z.leb_spec (Z.of_nat (n + S m)) (Z.of_nat n)); [lia|].
  simpl. unfold PyStr.slice. f_equal.
  replace (Z.to_nat (Z.of_nat n)) with n by lia.
  replace (Z.to_nat (Z.of_nat (n + S m) + 1 - Z.of_nat n))
    with (String.length (String "{" (mid ++ "}"))).
  2:{ simpl. rewrite length_app. simpl. fold m. lia. }
  rewrite Htext.
  replace (String "{" (mid ++ String "}" Q))
    with (String "{" (mid ++ "}") ++ Q).
  2:{ sapp. rewrite string_app_assoc. by sapp. }
  apply substring_app_mid.
Qed.

Lemma find_from_found c i s r :
  PyStr.find_from c i s = r -> r <> (-1)%Z ->
  exists p rest,
    s = p ++ String c rest /\ (c ∉ chars p)
    /\ r = (i + Z.of_nat (String.length p))%Z.
Proof.
  revert i. induction s as [|x s IH]; intros i Hr Hne; simpl in Hr.
  - congruence.
  - destruct (Ascii.eqb_spec x c) as [->|Hx].
    + exists "", s. repeat split; [apply not_elem_of_nil|simpl; lia].
    + destruct (IH (i + 1)%Z Hr Hne) as (p & rest & -> & Hp & ->).
      exists (String x p), rest. sapp. repeat split.
      * simpl. apply not_elem_of_cons. split; [congruence|done].
      * simpl String.length. lia.
Qed.

Lemma rfind_from_found c i last s r :
  PyStr.rfind_from c i last s = r ->
  ((c ∉ chars s) /\ r = last) \/
  exists a q,
    s = a ++ String c q /\ (c ∉ chars q)
    /\ r = (i + Z.of_nat (String.length a))%Z.
Proof.
  revert i last. induction s as [|x s IH]; intros i last Hr; simpl in Hr.
  - left. split; [apply not_elem_of_nil|done].
  - destruct (IH _ _ Hr) as [[Hs Hl]|(a & q & -> & Hq & ->)].
    + destruct (Ascii.eqb_spec x c) as [->|Hx].
      * right. exists "", s. sapp. repeat split; [done|simpl; lia].
      * left. split; [|done]. simpl. apply not_elem_of_cons.
        split; [congruence|done].
    + right. exists (String x a), q. sapp. repeat split; [done|].
      simpl String.length. lia.
Qed.

(** Two ways to cut one text, the first cut ending before the second. *)
Lemma app_cut_between p c rest a d q :
  p ++ String c rest = a ++ String d q ->
  String.length p < String.length a ->
  exists mid, a = p ++ String c mid /\ rest = mid ++ String d q.
Proof.
  revert a. induction p as [|x p IH]; intros a; sapp.
  - destruct a as [|y a]; simpl; [lia|]. sapp. intros [= -> ->] _.
    by exists a.
  - destruct a as [|y a]; simpl; [lia|]. sapp. intros [= -> H] Hlen.
    destruct (IH a H) as (mid & -> & ->); [lia|]. by exists mid.
Qed.

(** X18: whenever [_extract_json] returns, the span it returns begins
    with an opening brace and ends with a closing brace, and it is the
    outermost such span of the stripped and unfenced text: no opening
    brace precedes it and no closing brace follows it. *)
Theorem extract_json_span text span :
  _extract_json text = inr span ->
  exists p mid q,
    remove_fences (PyStr.strip (default "" text)) = p ++ span ++ q /\
    span = "{" ++ mid ++ "}" /\
    ~ has_char "{" p /\ ~ has_char "}" q.
Proof.
  unfold has_char, _extract_json.
  set (body := remove_fences (PyStr.strip (default "" text))).
  destruct (Z.eqb_spec (PyStr.find body "{") (-1)) as [|Hs]; [done|].
  destruct (Z.eqb_spec (PyStr.rfind body "}") (-1)) as [|He]; [done|].
  destruct (Z.leb_spec (PyStr.rfind body "}") (PyStr.find body "{"))
    as [|Hlt]; [done|].
  simpl. intros [= <-].
  destruct (find_from_found _ _ _ _ eq_refl Hs) as (p & rest & Hb & Hp & Hf).
  destruct (rfind_from_found _ _ _ _ _ (eq_refl (PyStr.rfind body "}")))
    as [[_ Hl]|(a & q & Hb' & Hq & Hr)]; [done|].
  fold (PyStr.find body "{") in Hf. rewrite Hf, Hr in Hlt |- *.
  destruct (app_cut_between p "{" rest a "}" q) as (mid & -> & ->);
    [congruence|lia|].
  exists p, mid, q.
  assert (Hspan : PyStr.slice body (0 + Z.of_nat (String.length p))
                    (0 + Z.of_nat (String.length (p ++ String "{" mid)) + 1)
                  = "{" ++ mid ++ "}").
  { unfold PyStr.slice. rewrite length_app. simpl String.length.
    replace (Z.to_nat (0 + Z.of_nat (String.length p)))
      with (String.length p) by lia.
    match goal with |- substring _ ?k _ = _ =>
      replace k with (String.length ("{" ++ mid ++ "}")) end.
    2:{ sapp. simpl. rewrite length_app. simpl. lia. }
    rewrite Hb.
    replace (String "{" (mid ++ String "}" q))
      with (("{" ++ mid ++ "}") ++ q).
    2:{ sapp. rewrite string_app_assoc. by sapp. }
    apply substring_app_mid. }
  rewrite Hspan. repeat split; [|done|done].
  rewrite Hb. sapp. f_equal. rewrite string_app_assoc. by sapp.
Qed.

Lemma extract_json_span_witness :
  exists p mid q,
    remove_fences (PyStr.strip "Sure: {} done") = p ++ "{}" ++ q /\
    "{}" = "{" ++ mid ++ "}" /\
    ~ has_char "{" p /\ ~ has_char "}" q.
Proof. by apply (extract_json_span (Some "Sure: {} done")). Defined.

Lemma extract_json_embedded_witness :
  _extract_json (Some ("Here it is: " ++ "{" ++ "}{" ++ "}" ++ " bye"))
  = inr ("{" ++ "}{" ++ "}").
Proof.
  apply extract_json_embedded; unfold has_char; vm_compute;
    intros H; repeat (apply elem_of_cons in H as [H|H]; [discriminate|]);
    inversion H.
Defined.

(** ** Fences *)

(** The stripped form of a text around an object. *)
Lemma strip_around p mid q :
  PyStr.strip (p ++ String "{" (mid ++ String "}" q))
  = PyStr.lstrip p ++ String "{" (mid ++ String "}" (PyStr.rstrip q)).
Proof.
  unfold PyStr.strip. rewrite lstrip_app_nonspace by done.
  replace (PyStr.lstrip p ++ String "{" (mid ++ String "}" q))
    with ((PyStr.lstrip p ++ String "{" mid) ++ String "}" q)
    by (rewrite string_app_assoc; by sapp).
  rewrite rstrip_app_nonspace by done. rewrite string_app_assoc. by sapp.
Qed.

(** The span of a text around an object: what [_extract_json] does
    after the fences are gone. *)
Lemma span_around P mid Q text :
  ~ has_char "{" P -> ~ has_char "}" Q ->
  text = P ++ String "{" (mid ++ String "}" Q) ->
  (if (PyStr.find text "{" =? -1)%Z || (PyStr.rfind text "}" =? -1)%Z
      || (PyStr.rfind text "}" <=? PyStr.find text "{")%Z
   then inl (ValueError "No JSON object found in LLM response")
   else inr (PyStr.slice text (PyStr.find text "{")
               (PyStr.rfind text "}" + 1)))
  = inr ("{" ++ mid ++ "}").
Proof.
  unfold has_char. intros HP HQ Ht.
  set (n := String.length P). set (m := String.length mid).
  assert (Htext : text = (P ++ String "{" mid) ++ String "}" Q).
  { rewrite Ht, string_app_assoc. by sapp. }
  assert (Hfind : PyStr.find text "{" = Z.of_nat n).
  { unfold PyStr.find. rewrite Ht. sapp. rewrite find_from_app by done.
    fold n. lia. }
  assert (Hrfind : PyStr.rfind text "}" = Z.of_nat (n + S m)).
  { unfold PyStr.rfind. rewrite Htext, rfind_from_app by done.
    rewrite length_app. simpl String.length. fold n m. lia. }
  rewrite Hfind, Hrfind.
  destruct (Z.eqb_spec (Z.of_nat n) (-1)); [lia|].
  destruct (Z.eqb_spec (Z.of_nat (n + S m)) (-1)); [lia|].
  destruct (Z.leb_spec (Z.of_nat (n + S m)) (Z.of_nat n)); [lia|].
  simpl. unfold PyStr.slice. f_equal.
  replace (Z.to_nat (Z.of_nat n)) with n by lia.
  replace (Z.to_nat (Z.of_nat (n + S m) + 1 - Z.of_nat n))
    with (String.length (String "{" (mid ++ "}"))).
  2:{ simpl. rewrite length_app. simpl. fold m. lia. }
  rewrite Ht. sapp.
  replace (String "{" (mid ++ String "}" Q))
    with (String "{" (mid ++ "}") ++ Q).
  2:{ sapp. rewrite string_app_assoc. by sapp. }
  apply substring_app_mid.
Qed.

Lemma extract_embedded_eq p mid q :
  ~ has_char "{" p -> ~ has_char "`" p -> ~ has_char "}" q ->
  _extract_json (Some (p ++ "{" ++ mid ++ "}" ++ q))
  = inr ("{" ++ mid ++ "}").
Proof.
  intros Hp1 Hp2 Hq. unfold _extract_json. simpl default. sapp.
  rewrite strip_around.
  assert (Hfence : forall t, remove_fences (PyStr.lstrip p ++ String "{" t)
                             = PyStr.lstrip p ++ String "{" t).
  { intros t. unfold remove_fences.
    rewrite startswith_fence_no; [done| |done]. by apply lstrip_notin. }
  rewrite Hfence. apply (span_around (PyStr.lstrip p) mid (PyStr.rstrip q));
    [by apply lstrip_notin|by apply rstrip_notin|done].
Qed.

Lemma has_char_app c a b :
  has_char c (a ++ b) <-> has_char c a \/ has_char c b.
Proof. unfold has_char. by rewrite chars_app, elem_of_app. Qed.

Lemma has_char_cons c x s :
  has_char c (String x s) <-> c = x \/ has_char c s.
Proof. unfold has_char. simpl. by rewrite elem_of_cons. Qed.

(** Splitting at the closing fence of a text without backticks. *)
Lemma string_of_snoc l x (s : string) :
  string_of_list_ascii (l ++ [x]) ++ s
  = string_of_list_ascii l ++ String x s.
Proof. induction l as [|y l IH]; simpl; sapp; [done|]. by f_equal. Qed.

Lemma split_go_closing cur B :
  ~ has_char "`" B ->
  PyStr.split_go "```" 0 cur (B ++ "```")
  = [string_of_list_ascii (rev cur) ++ B; ""].
Proof.
  unfold has_char. revert cur. induction B as [|x B IH]; intros cur HB; sapp.
  - simpl. by rewrite string_app_nil_r.
  - simpl in HB. apply not_elem_of_cons in HB as [Hx HB].
    cbn [PyStr.split_go String.prefix].
    destruct (ascii_dec "`" x) as [|_]; [congruence|].
    rewrite IH by done. simpl rev. by rewrite string_of_snoc.
Qed.

Lemma prefix_app a x : String.prefix a (a ++ x) = true.
Proof.
  induction a as [|c a IH]; sapp; [by destruct x|]. cbn [String.prefix].
  by destruct (ascii_dec c c).
Qed.

Lemma split_fenced B :
  ~ has_char "`" B ->
  PyStr.split ("```" ++ B ++ "```") "```" = [""; B; ""].
Proof.
  intros HB. unfold PyStr.split.
  assert (Hgo : forall c r cur,
            String.prefix "```" (String c r) = true ->
            PyStr.split_go "```" 0 cur (String c r)
            = string_of_list_ascii (rev cur) :: PyStr.split_go "```" 2 [] r).
  { intros c r cur H. cbn [PyStr.split_go]. by rewrite H. }
  pose proof (prefix_app "```" (B ++ "```")) as Hpre. revert Hpre. sapp.
  intros Hpre. rewrite (Hgo _ _ _ Hpre).
  change (PyStr.split_go "```" 2 [] (String "`" (String "`" (B ++ "```"))))
    with (PyStr.split_go "```" 0 [] (B ++ "```")).
  by rewrite split_go_closing.
Qed.

Lemma substring_all s : substring 0 (String.length s) s = s.
Proof. induction s as [|c s IH]; simpl; [done|]. by f_equal. Qed.

(** After the optional tag is removed the text is still an object with
    something before it that has no opening brace. *)
Lemma sub_json_tag_around P rest :
  ~ has_char "{" P ->
  exists P',
    PyStr.sub_json_tag (P ++ String "{" rest) = P' ++ String "{" rest
    /\ ~ has_char "{" P'.
Proof.
  unfold has_char. intros HP. unfold PyStr.sub_json_tag.
  rewrite lstrip_app_nonspace by done.
  pose proof (lstrip_notin "{" P HP) as HP2.
  set (P2 := PyStr.lstrip P) in *.
  destruct (String.prefix "json" _) eqn:Hpre; [|by exists P].
  destruct P2 as [|a [|b [|c [|d P4]]]]; sapp.
  - exfalso. revert Hpre. sapp. by destruct rest as [|? [|? [|? ?]]].
  - exfalso. revert Hpre. sapp. cbn [substring PyStr.lower String.prefix].
    destruct (ascii_dec "j" (PyStr.lower_char a)); [|done].
    by destruct rest as [|? [|? ?]].
  - exfalso. revert Hpre. sapp. cbn [substring PyStr.lower String.prefix].
    destruct (ascii_dec "j" (PyStr.lower_char a)); [|done].
    destruct (ascii_dec "s" (PyStr.lower_char b)); [|done].
    by destruct rest as [|? ?].
  - exfalso. revert Hpre. sapp. cbn [substring PyStr.lower String.prefix].
    destruct (ascii_dec "j" (PyStr.lower_char a)); [|done].
    destruct (ascii_dec "s" (PyStr.lower_char b)); [|done].
    destruct (ascii_dec "o" (PyStr.lower_char c)); [|done].
    done.
  - exists (PyStr.lstrip P4).
    cbn [String.length substring Nat.sub].
    rewrite Nat.sub_0_r, substring_all, lstrip_app_nonspace by done.
    split; [done|].
    apply lstrip_notin. simpl in HP2.
    by repeat (apply not_elem_of_cons in HP2 as [_ HP2]).
Qed.

(** X20: a reply wrapped in triple-backtick fences parses like the
    bare reply: when the fenced text has no backtick inside, no opening
    brace before the object (a language tag and line breaks may stand
    there) and no closing brace after it, [_extract_json] returns the
    object, exactly as it does on the text without the fences. *)
Theorem extract_json_fenced p mid q :
  ~ has_char "`" p -> ~ has_char "`" mid -> ~ has_char "`" q ->
  ~ has_char "{" p -> ~ has_char "}" q ->
  _extract_json (Some ("```" ++ p ++ "{" ++ mid ++ "}" ++ q ++ "```"))
  = inr ("{" ++ mid ++ "}") /\
  _extract_json (Some ("```" ++ p ++ "{" ++ mid ++ "}" ++ q ++ "```"))
  = _extract_json (Some (p ++ "{" ++ mid ++ "}" ++ q)).
Proof.
  intros Hp Hmid Hq Hp1 Hq1.
  rewrite (extract_embedded_eq p mid q) by done.
  cut (_extract_json
         (Some ("```" ++ p ++ "{" ++ mid ++ "}" ++ q ++ "```"))
       = inr ("{" ++ mid ++ "}")); [by intros ->|].
  unfold _extract_json. simpl default.
  set (B := p ++ "{" ++ mid ++ "}" ++ q).
  assert (HB : ~ has_char "`" B).
  { unfold B. sapp.
    rewrite has_char_app, has_char_cons, has_char_app, has_char_cons.
    intros [?|[?|[?|[?|?]]]]; done. }
  assert (HT : "```" ++ p ++ "{" ++ mid ++ "}" ++ q ++ "```"
               = "```" ++ B ++ "```").
  { unfold B. by rewrite !string_app_assoc. }
  rewrite HT.
  assert (Hstrip : PyStr.strip ("```" ++ B ++ "```") = "```" ++ B ++ "```").
  { unfold PyStr.strip. sapp. cbn [PyStr.lstrip].
    change (PyStr.isspace "`") with false. cbv iota.
    replace (String "`" (String "`" (String "`" (B ++ "```"))))
      with (("```" ++ B ++ "``") ++ String "`" "").
    2:{ sapp. rewrite string_app_assoc. by sapp. }
    by rewrite rstrip_app_nonspace. }
  rewrite Hstrip. unfold remove_fences, PyStr.startswith.
  rewrite prefix_app, split_fenced by done.
  unfold B. sapp. rewrite strip_around.
  destruct (sub_json_tag_around (PyStr.lstrip p)
              (mid ++ String "}" (PyStr.rstrip q)))
    as (P' & -> & HP'); [by apply lstrip_notin|].
  rewrite strip_around.
  apply (span_around (PyStr.lstrip P') mid (PyStr.rstrip (PyStr.rstrip q))).
  - by apply lstrip_notin.
  - by do 2 apply rstrip_notin.
  - done.
Qed.

Lemma extract_json_fenced_witness :
  _extract_json
    (Some ("```" ++ ("json" ++ PyStr.nl) ++ "{" ++ " 'articles': [] "
             ++ "}" ++ PyStr.nl ++ "```"))
  = inr ("{" ++ " 'articles': [] " ++ "}").
Proof.
  apply extract_json_fenced; unfold has_char; vm_compute;
    intros H; repeat (apply elem_of_cons in H as [H|H]; [discriminate|]);
    inversion H.
Defined.

(** ** More on the merge and on the reply *)

(** X21: an item that hits none of the three vocabularies and has no
    creation timestamp has the heuristic score 0 and the rationale of
    an empty match; its fallback score is 3. *)
Theorem no_hit_scores_zero clk self d t :
  digest_tokens d ∩ interest_tokens self = ∅ ->
  digest_tokens d ∩ boost_terms self = ∅ ->
  digest_tokens d ∩ down_terms self = ∅ ->
  Digest.created_at d = None ->
  fst (_heuristic_score clk self d t)
    = (0%float, "interest=0, boost=0, recency=0.00") /\
  fallback_score (fst (fst (_heuristic_score clk self d t))) = 3%float.
Proof.
  intros Hi Hb Hd Hc. unfold _heuristic_score.
  rewrite Hi, Hb, Hd, Hc, size_empty. split; reflexivity.
Qed.

Lemma no_hit_scores_zero_witness :
  fst (_heuristic_score Sample.clk0 Sample.agent Sample.d4 0)
  = (0%float, "interest=0, boost=0, recency=0.00").
Proof.
  apply (no_hit_scores_zero Sample.clk0 Sample.agent Sample.d4 0);
    vm_compute; reflexivity.
Defined.

(** X22: a score the external service returns for an identifier that
    is not shortlisted has no effect: two score maps that agree on the
    shortlisted identifiers give the same rows. *)
Theorem unknown_ids_have_no_effect (m1 m2 : gmap string float)
    (shortlisted : list scored) :
  (forall d, d ∈ shortlisted ->
             m1 !! Digest.id (item d) = m2 !! Digest.id (item d)) ->
  merge_row m1 <$> shortlisted = merge_row m2 <$> shortlisted.
Proof.
  intros H. apply list_fmap_ext. intros i d Hd. unfold merge_row.
  by rewrite (H d (list_elem_of_lookup_2 _ _ _ Hd)).
Qed.

Lemma unknown_ids_have_no_effect_witness :
  merge_row (<["zzz" := 9%float]> ∅) <$> [mk_scored Sample.d1 1 "w"]
  = merge_row ∅ <$> [mk_scored Sample.d1 1 "w"].
Proof.
  apply unknown_ids_have_no_effect. intros d Hd.
  apply list_elem_of_singleton in Hd as ->. vm_compute. reflexivity.
Defined.

(** X23: among the objects of the reply, those without a usable
    identifier or without a numeric score are skipped silently: reading
    a list of objects gives what reading its accepted objects gives. *)
Theorem malformed_objects_skipped items scores :
  Forall is_object items ->
  collect_scores items scores
  = collect_scores (List.filter accepted items) scores.
Proof.
  intros Hobj. revert scores.
  induction Hobj as [|x items Hx _ IH]; intros scores; [done|].
  destruct x as [| | | | | |kvs]; try done.
  cbn [List.filter accepted collect_scores].
  destruct (truthy (Json.get "digest_id" kvs)) eqn:Ht; [|apply IH].
  destruct (as_number (Json.get "relevance_score" kvs)) as [[f|]|] eqn:Hn;
    cbn [andb].
  - rewrite bool_decide_true by eauto. cbn [collect_scores].
    rewrite Ht, Hn. destruct (Json.get "digest_id" kvs) as [[]|]; try done;
      apply IH.
  - rewrite bool_decide_true by eauto. cbn [collect_scores].
    by rewrite Ht, Hn.
  - rewrite bool_decide_false by (by intros [? ?]). apply IH.
Qed.

Lemma malformed_objects_skipped_witness :
  collect_scores
    [JDict [("digest_id", JStr "")]; entry "a" 1;
     JDict [("digest_id", JStr "b"); ("relevance_score", JStr "high")]] ∅
  = collect_scores [entry "a" 1] ∅.
Proof.
  rewrite malformed_objects_skipped; [done|]. by repeat constructor.
Defined.

(** ** The prompt of the digest agent *)

Lemma char_count_app a b : char_count (a ++ b) = char_count a + char_count b.
Proof.
  unfold char_count. by rewrite chars_app, List.filter_app, List.length_app.
Qed.

Lemma take_chars_count n s : char_count (take_chars n s) <= n.
Proof.
  unfold char_count. revert n.
  induction s as [|c s IH]; intros n; simpl; [lia|].
  destruct (starts_char c) eqn:Hc.
  - destruct n as [|k]; simpl; [lia|]. rewrite Hc. simpl.
    specialize (IH k). lia.
  - simpl. rewrite Hc. apply IH.
Qed.

Lemma take_chars_all n s : char_count s <= n -> take_chars n s = s.
Proof.
  unfold char_count. revert n.
  induction s as [|c s IH]; intros n; simpl; [done|].
  destruct (starts_char c) eqn:Hc; simpl.
  - destruct n as [|k]; [lia|]. intros Hn. f_equal. apply IH. lia.
  - intros Hn. f_equal. by apply IH.
Qed.

(** The slice cuts the text in two at a character boundary. *)
Lemma take_chars_prefix n s :
  exists rest,
    s = take_chars n s ++ rest /\
    match rest with
    | String c _ => starts_char c = true
    | EmptyString => True
    end.
Proof.
  revert n. induction s as [|c s IH]; intros n; [by exists ""|].
  cbn [take_chars]. destruct (starts_char c) eqn:Hc.
  - destruct n as [|k]; [by exists (String c s)|].
    destruct (IH k) as (rest & Hs & Hr). exists rest. sapp.
    split; [by f_equal|done].
  - destruct (IH n) as (rest & Hs & Hr). exists rest. sapp.
    split; [by f_equal|done].
Qed.

(** The slice has [n] characters, or all of them when there are
    fewer. *)
Lemma take_chars_count_eq n s :
  char_count (take_chars n s) = Nat.min n (char_count s).
Proof.
  unfold char_count. revert n.
  induction s as [|c s IH]; intros n; simpl; [lia|].
  destruct (starts_char c) eqn:Hc.
  - destruct n as [|k]; simpl; [done|]. rewrite Hc. simpl.
    specialize (IH k). lia.
  - simpl. rewrite Hc. apply IH.
Qed.

(** X24: the user prompt of the digest agent carries the first 8000
    characters of the content, or the whole content when it has no
    more: the content is the carried text followed by a rest that
    starts at a character boundary, and the carried text has 8000
    characters or as many as the content has.  So the size of the
    prompt is bounded whatever the length of the content is, and a
    content of at most 8000 characters is carried whole. *)
Theorem digest_prompt_bounded title content article_type :
  char_count (digest_user_prompt title content article_type)
    <= 44 + char_count article_type + char_count title + CONTENT_LIMIT /\
  (char_count content <= CONTENT_LIMIT ->
   digest_user_prompt title content article_type
   = "Create a digest for this " ++ article_type ++ "." ++ PyStr.nl
       ++ "Title: " ++ title ++ PyStr.nl
       ++ "Content:" ++ PyStr.nl ++ content) /\
  (exists kept rest,
     content = kept ++ rest /\
     char_count kept = Nat.min CONTENT_LIMIT (char_count content) /\
     match rest with
     | String c _ => starts_char c = true
     | EmptyString => True
     end /\
     digest_user_prompt title content article_type
     = "Create a digest for this " ++ article_type ++ "." ++ PyStr.nl
         ++ "Title: " ++ title ++ PyStr.nl
         ++ "Content:" ++ PyStr.nl ++ kept).
Proof.
  unfold digest_user_prompt. split; [|split].
  - rewrite !char_count_app.
    pose proof (take_chars_count CONTENT_LIMIT content) as H.
    change (char_count "Create a digest for this ") with 25.
    change (char_count ".") with 1. change (char_count PyStr.nl) with 1.
    change (char_count "Title: ") with 7.
    change (char_count "Content:") with 8. lia.
  - intros H. by rewrite take_chars_all.
  - destruct (take_chars_prefix CONTENT_LIMIT content) as (rest & Hs & Hr).
    exists (take_chars CONTENT_LIMIT content), rest.
    split; [exact Hs|]. split; [apply take_chars_count_eq|]. by split.
Qed.

Lemma digest_prompt_bounded_witness :
  digest_user_prompt "T" "short" "article"
  = "Create a digest for this " ++ "article" ++ "." ++ PyStr.nl
      ++ "Title: " ++ "T" ++ PyStr.nl ++ "Content:" ++ PyStr.nl ++ "short".
Proof.
  apply (proj1 (proj2 (digest_prompt_bounded "T" "short" "article"))).
  apply Nat.leb_le. vm_compute. reflexivity.
Defined.
